(** * SportEase: slot reservation, booking and payment confirmation

    A shallow embedding of the booking core of [src/main.py]
    ([reserve_slots], [create_booking], [confirm_payment]) over an
    in-memory model of the MongoDB collections it touches, of the
    handlers that read them ([get_slots], [list_bookings]) and of
    [add_review], and the properties of that code. *)

From Stdlib Require Import ZArith NArith Floats Ascii String.
From stdpp Require Import gmap strings list fin_maps sorting.

Local Open Scope Z_scope.

(** ** BSON object ids

    [bson.ObjectId(s)] takes a string of exactly 24 characters and reads
    it with [bytes.fromhex]: pairs of hexadecimal digits, in either
    case, where ASCII white space before a pair is skipped.  Without
    white space the result is the usual id of 12 bytes; with white space
    it has fewer bytes, and [ObjectId] does not look at their number.
    [str] prints two digits for each byte, in lower case.

    An id is held as a number: an id of 12 bytes as its value, which is
    below [2^96]; an id of [k < 12] bytes as its value plus
    [(12 - k) * 2^96]. *)

Abbreviation ObjectId := N.

Definition hex_digit (c : ascii) : option N :=
  let n := N_of_ascii c in
  if ((48 <=? n) && (n <=? 57))%N then Some (n - 48)%N
  else if ((97 <=? n) && (n <=? 102))%N then Some (n - 87)%N
  else if ((65 <=? n) && (n <=? 70))%N then Some (n - 55)%N
  else None.

(** [Py_ISSPACE]: the space and the characters 9 to 13. *)
Definition is_space (c : ascii) : bool :=
  let n := N_of_ascii c in
  ((n =? 32) || ((9 <=? n) && (n <=? 13)))%N.

(** [bytes.fromhex]: the value of the bytes read and their number. *)
Fixpoint fromhex (acc : N) (len : nat) (s : string) : option (N * nat) :=
  match s with
  | EmptyString => Some (acc, len)
  | String c s' =>
      if is_space c then fromhex acc len s'
      else
        match hex_digit c, s' with
        | Some top, String c' s'' =>
            match hex_digit c' with
            | Some bot => fromhex (256 * acc + 16 * top + bot)%N (S len) s''
            | None => None
            end
        | _, _ => None
        end
  end.

Definition ObjectId_of_str (s : string) : option ObjectId :=
  if (String.length s =? 24)%nat then
    match fromhex 0%N 0%nat s with
    | Some (value, len) => Some (value + N.of_nat (12 - len) * 2 ^ 96)%N
    | None => None
    end
  else None.

Definition hex_char (d : N) : ascii :=
  ascii_of_N (if (d <? 10)%N then 48 + d else 87 + d)%N.

Fixpoint hexlify (digits : nat) (n : N) (acc : string) : string :=
  match digits with
  | O => acc
  | S k => hexlify k (n / 16)%N (String (hex_char (n mod 16)%N) acc)
  end.

Definition str_of_ObjectId (o : ObjectId) : string :=
  hexlify (2 * (12 - N.to_nat (o / 2 ^ 96)%N))%nat (o mod 2 ^ 96)%N EmptyString.

(** ** Python numbers

    A Python [float] is an IEEE 754 binary64 value, as is Rocq's
    primitive [float]; [*] is [PrimFloat.mul]. *)

Definition float_of_int (z : Z) : float := PrimFloat.of_uint63 (Uint63.of_Z z).

(** [int(x)]: truncation toward zero; [None] when Python raises, which
    is [OverflowError] on an infinity and [ValueError] on a NaN. *)
Definition py_int (x : float) : option Z :=
  match Prim2SF x with
  | S754_zero _ => Some 0
  | S754_finite s m e =>
      let a := if (0 <=? e) then Z.pos m * 2 ^ e else Z.pos m / 2 ^ (- e) in
      Some (if s then - a else a)
  | S754_infinity _ | S754_nan => None
  end.

Definition py_int_error (x : float) : string :=
  if PrimFloat.is_nan x then "ValueError" else "OverflowError".

(** Nearest integer to [p / q], ties to even ([0 < q]). *)
Definition div_half_even (p q : Z) : Z :=
  let d := p / q in
  let r := 2 * (p mod q) in
  if r <? q then d
  else if q <? r then d + 1
  else if Z.even d then d else d + 1.

(** [round(x, 2)]: a non-finite [x] is returned as it is; otherwise the
    exact value of [x] is rounded to the nearest hundredth [n / 100],
    ties to even, and the double nearest to that decimal is returned,
    which is the correctly rounded quotient of [n] by [100].  An integral
    [x], and an [x] so large that [n] is not below [2^53], is its own
    nearest double and is returned as it is. *)
Definition py_round2 (x : float) : float :=
  match Prim2SF x with
  | S754_finite s m e =>
      if 0 <=? e then x
      else
        let n := div_half_even (100 * Z.pos m) (2 ^ (- e)) in
        if 2 ^ 53 <=? n then x
        else
          let r := (float_of_int n / float_of_int 100)%float in
          if s then (- r)%float else r
  | _ => x
  end.

Local Close Scope Z_scope.

(** ** Documents and collections *)

Module SlotStatus.
Inductive t := available | reserved | booked | blocked.
#[global] Instance eq_dec : EqDecision t.
Proof. solve_decision. Defined.
End SlotStatus.

Module PaymentStatus.
Inductive t := pending | paid | failed | refunded.
#[global] Instance eq_dec : EqDecision t.
Proof. solve_decision. Defined.
End PaymentStatus.

Module BookingStatus.
Inductive t := pending | confirmed | cancelled.
#[global] Instance eq_dec : EqDecision t.
Proof. solve_decision. Defined.
End BookingStatus.

Module PaymentState.
Inductive t := created | paid | failed.
#[global] Instance eq_dec : EqDecision t.
Proof. solve_decision. Defined.
End PaymentState.

Record Venue := {
  v_ownerId : string;
  v_name : string;
  v_pricePerHour : option float;
}.

Record AvailabilitySlot := {
  s_venueId : string;
  s_date : string;
  s_startTime : string;
  s_endTime : string;
  s_status : SlotStatus.t;
}.

Record Booking := {
  b_userId : string;
  b_venueId : string;
  b_slotIds : list string;
  b_totalAmount : float;
  b_commission : float;
  b_paymentStatus : PaymentStatus.t;
  b_status : BookingStatus.t;
  b_bookingCode : option string;
  b_created_at : Z;
}.

Record Payment := {
  p_bookingId : string;
  p_amount : float;
  p_gateway : string;
  p_orderId : string;
  p_status : PaymentState.t;
  p_transactionId : option string;
  p_created_at : Z;
}.

(** The database [db].  A collection is keyed by [_id], which MongoDB
    keeps unique.  The payment collection is a list in insertion order:
    it is the one collection updated through a field that is not its
    key, and [update_one] then takes the first match. *)
Record Store := {
  venue : gmap ObjectId Venue;
  availabilityslot : gmap ObjectId AvailabilitySlot;
  booking : gmap ObjectId Booking;
  payment : list (ObjectId * Payment);
}.

Definition set_availabilityslot (m : gmap ObjectId AvailabilitySlot) (db : Store) : Store :=
  {| venue := venue db; availabilityslot := m; booking := booking db;
     payment := payment db |}.

Definition set_booking (m : gmap ObjectId Booking) (db : Store) : Store :=
  {| venue := venue db; availabilityslot := availabilityslot db; booking := m;
     payment := payment db |}.

Definition set_payment (l : list (ObjectId * Payment)) (db : Store) : Store :=
  {| venue := venue db; availabilityslot := availabilityslot db; booking := booking db;
     payment := l |}.

(** ** Handlers as state transformers that may raise

    A handler runs against the database and either returns or raises;
    what it wrote before raising stays written. *)

Inductive Exn :=
  | HTTPException (status_code : Z) (detail : string)
  | Unhandled (name : string).

Inductive Result (A : Type) :=
  | Ok (a : A)
  | Raised (e : Exn).
Arguments Ok {A} a.
Arguments Raised {A} e.

Definition M (A : Type) : Type := Store → Result A * Store.

#[global] Instance M_ret : MRet M := λ A a db, (Ok a, db).
#[global] Instance M_bind : MBind M := λ A B f m db,
  match m db with
  | (Ok a, db') => f a db'
  | (Raised e, db') => (Raised e, db')
  end.

Definition raise {A} (e : Exn) : M A := λ db, (Raised e, db).
Definition gets {A} (f : Store → A) : M A := λ db, (Ok (f db), db).
Definition modify (f : Store → Store) : M unit := λ db, (Ok tt, f db).

(** ** Helpers of [main.py] *)

Definition invalid_id : Exn := HTTPException 400 "Invalid id".

Definition oid (s : string) : M ObjectId :=
  match ObjectId_of_str s with
  | Some o => mret o
  | None => raise invalid_id
  end.

(** ** The collection operations the handlers use *)

Definition set_status (st : SlotStatus.t) (s : AvailabilitySlot) : AvailabilitySlot :=
  {| s_venueId := s_venueId s; s_date := s_date s; s_startTime := s_startTime s;
     s_endTime := s_endTime s; s_status := st |}.

(** [{"_id": {"$in": ids}, "status": "available"}] *)
Definition matches_available (ids : list ObjectId) (kv : ObjectId * AvailabilitySlot) : Prop :=
  kv.1 ∈ ids ∧ s_status kv.2 = SlotStatus.available.

#[global] Instance matches_available_dec ids kv : Decision (matches_available ids kv).
Proof. unfold matches_available. apply _. Defined.

(** What [update_many({"_id": {"$in": ids}, "status": "available"},
    {"$set": {"status": "reserved"}})] does to the collection. *)
Definition mark_reserved (ids : list ObjectId) (m : gmap ObjectId AvailabilitySlot)
  : gmap ObjectId AvailabilitySlot :=
  map_imap (λ k s, Some (if decide (matches_available ids (k, s))
                         then set_status SlotStatus.reserved s else s)) m.

(** The update itself, returning its [modified_count]: every matched
    document changes, from [available] to [reserved]. *)
Definition reserve_available (ids : list ObjectId) : M nat := λ db,
  let m := availabilityslot db in
  (Ok (size (filter (matches_available ids) m)),
   set_availabilityslot (mark_reserved ids m) db).

(** ** [POST /api/slots/reserve] *)

Record ReservePayload := {
  rp_userId : string;
  rp_slotIds : list string;
}.

Definition slot_conflict : Exn := HTTPException 409 "One or more slots are not available".

Definition reserve_slots (payload : ReservePayload) : M (list string) :=
  ids ← mapM oid (rp_slotIds payload);
  modified_count ← reserve_available ids;
  if decide (modified_count ≠ length ids) then raise slot_conflict
  else mret (rp_slotIds payload).

(** ** [POST /api/bookings/create] *)

Record CreateBookingPayload := {
  cb_userId : string;
  cb_venueId : string;
  cb_slotIds : list string;
}.

(** The order object: the gateway's JSON reply or the local fallback.
    Only its ["id"] is read, and a reply may lack it. *)
Record Order := {
  order_id : option string;
  order_amount : Z;
  order_currency : string;
}.

Record BookingQuote := {
  q_bookingId : string;
  q_totalAmount : float;
  q_order : Order;
  q_razorpayKeyId : string;
}.

(** What a call of [create_booking] takes from outside the database:
    the [_id]s the driver generates for the two inserted documents, the
    two readings of the clock, and the outcome of the HTTP call to the
    gateway ([None]: anything raised inside the [try] block). *)
Record Environment := {
  env_booking_id : ObjectId;
  env_payment_id : ObjectId;
  env_now_booking : Z;
  env_now_payment : Z;
  env_gateway : option Order;
}.

(** [find_one({"_id": vid})] on [db["venue"]] *)
Definition find_venue (vid : ObjectId) : M (option Venue) :=
  gets (λ db, venue db !! vid).

(** [list(find({"_id": {"$in": ids}}))] on [db["availabilityslot"]] *)
Definition find_slots (ids : list ObjectId) : M (list (ObjectId * AvailabilitySlot)) :=
  gets (λ db, map_to_list (filter (λ kv, kv.1 ∈ ids) (availabilityslot db))).

(** [insert_one]: a second document with the same [_id] is refused. *)
Definition insert_booking (id : ObjectId) (doc : Booking) : M ObjectId := λ db,
  match booking db !! id with
  | Some _ => (Raised (Unhandled "DuplicateKeyError"), db)
  | None => (Ok id, set_booking (<[id := doc]> (booking db)) db)
  end.

Definition insert_payment (id : ObjectId) (doc : Payment) : M ObjectId := λ db,
  if decide (id ∈ (payment db).*1) then (Raised (Unhandled "DuplicateKeyError"), db)
  else (Ok id, set_payment (payment db ++ [(id, doc)]) db).

(** [s.get("status") in ("available", "reserved")] *)
Definition bookable (s : AvailabilitySlot) : bool :=
  match s_status s with
  | SlotStatus.available | SlotStatus.reserved => true
  | SlotStatus.booked | SlotStatus.blocked => false
  end.

Definition invalid_slots : Exn := HTTPException 400 "Invalid slots".
Definition slot_not_bookable : Exn := HTTPException 409 "Some slots are not bookable".
Definition venue_not_found : Exn := HTTPException 404 "Venue not found".

Definition fallback_order (booking_id : string) (amount : Z) : Order :=
  {| order_id := Some ("order_" +:+ booking_id); order_amount := amount;
     order_currency := "INR" |}.

(** The literal [0.1]: the double nearest to one tenth. *)
Definition one_tenth : float := 0x1.999999999999ap-4.

(** [float(venue.get("pricePerHour", 0))] *)
Definition price_per_hour_of (venue : Venue) : float :=
  default (float_of_int 0) (v_pricePerHour venue).

(** [hours = max(1, len(payload.slotIds))] and
    [round(price_per_hour * hours, 2)] *)
Definition total_amount_for (venue : Venue) (payload : CreateBookingPayload) : float :=
  let price_per_hour := price_per_hour_of venue in
  let hours := Z.max 1 (Z.of_nat (length (cb_slotIds payload))) in
  py_round2 (price_per_hour * float_of_int hours).

Definition booking_doc (payload : CreateBookingPayload) (total_amount : float) (now : Z)
  : Booking :=
  {| b_userId := cb_userId payload;
     b_venueId := cb_venueId payload;
     b_slotIds := cb_slotIds payload;
     b_totalAmount := total_amount;
     b_commission := py_round2 (total_amount * one_tenth);
     b_paymentStatus := PaymentStatus.pending;
     b_status := BookingStatus.pending;
     b_bookingCode := None;
     b_created_at := now |}.

Definition pay_doc (booking_id : string) (total_amount : float) (order_ref : string)
  (now : Z) : Payment :=
  {| p_bookingId := booking_id;
     p_amount := total_amount;
     p_gateway := "razorpay";
     p_orderId := order_ref;
     p_status := PaymentState.created;
     p_transactionId := None;
     p_created_at := now |}.

(** ** [POST /api/payments/razorpay/confirm] *)

Record RazorpayConfirmPayload := {
  cp_bookingId : string;
  razorpay_payment_id : string;
  razorpay_order_id : string;
  razorpay_signature : option string;
}.

Definition find_booking (id : ObjectId) : M (option Booking) :=
  gets (λ db, booking db !! id).

Definition mark_paid (code : string) (b : Booking) : Booking :=
  {| b_userId := b_userId b; b_venueId := b_venueId b; b_slotIds := b_slotIds b;
     b_totalAmount := b_totalAmount b; b_commission := b_commission b;
     b_paymentStatus := PaymentStatus.paid; b_status := BookingStatus.confirmed;
     b_bookingCode := Some code; b_created_at := b_created_at b |}.

(** [update_one({"_id": id}, {"$set": {...}})] on [db["booking"]] *)
Definition update_booking (id : ObjectId) (f : Booking → Booking) : M unit :=
  modify (λ db, set_booking (alter f id (booking db)) db).

(** What [update_many({"_id": {"$in": ids}}, {"$set": {"status": "booked"}})]
    does to the collection. *)
Definition mark_booked (ids : list ObjectId) (m : gmap ObjectId AvailabilitySlot)
  : gmap ObjectId AvailabilitySlot :=
  map_imap (λ k s, Some (if decide (k ∈ ids) then set_status SlotStatus.booked s else s)) m.

Definition book_slots (ids : list ObjectId) : M unit :=
  modify (λ db, set_availabilityslot (mark_booked ids (availabilityslot db)) db).

Definition settle (txn : string) (p : Payment) : Payment :=
  {| p_bookingId := p_bookingId p; p_amount := p_amount p; p_gateway := p_gateway p;
     p_orderId := p_orderId p; p_status := PaymentState.paid;
     p_transactionId := Some txn; p_created_at := p_created_at p |}.

(** [update_one] changes the first document that matches. *)
Fixpoint update_first {A} (P : A → bool) (f : A → A) (l : list A) : list A :=
  match l with
  | [] => []
  | x :: l' => if P x then f x :: l' else x :: update_first P f l'
  end.

(** [update_one({"bookingId": bid}, {"$set": {...}})] on [db["payment"]] *)
Definition update_payment (bid : string) (f : Payment → Payment) : M unit :=
  modify (λ db, set_payment
    (update_first (λ kv, bool_decide (p_bookingId kv.2 = bid)) (prod_map id f) (payment db)) db).

Definition signature_mismatch : Exn := HTTPException 400 "Signature mismatch".
Definition booking_not_found : Exn := HTTPException 404 "Booking not found".

Section Handlers.

(** The gateway credentials, read from the process environment when
    the module is loaded; unset means the empty string. *)
Variable RAZORPAY_KEY_ID : string.
Variable RAZORPAY_KEY_SECRET : string.

(** [hmac.new(key, msg, hashlib.sha256).hexdigest()] *)
Variable hmac_sha256_hexdigest : string → string → string.

(** The order: the gateway's reply when both credentials are set and
    the call went through, the local fallback otherwise. *)
Definition razorpay_order (booking_id : string) (amount : Z) (reply : option Order) : Order :=
  if bool_decide (RAZORPAY_KEY_ID ≠ "" ∧ RAZORPAY_KEY_SECRET ≠ "") then
    match reply with
    | Some remote => remote
    | None => fallback_order booking_id amount
    end
  else fallback_order booking_id amount.

Definition create_booking (payload : CreateBookingPayload) (env : Environment)
  : M BookingQuote :=
  vid ← oid (cb_venueId payload);
  venue ← find_venue vid;
  match venue with
  | None => raise venue_not_found
  | Some venue =>
      let total_amount := total_amount_for venue payload in
      ids ← mapM oid (cb_slotIds payload);
      slots ← find_slots ids;
      if decide (length slots ≠ length ids) then raise invalid_slots
      else
        let invalid := filter (λ kv, bookable kv.2 = false) slots in
        match invalid with
        | _ :: _ => raise slot_not_bookable
        | [] =>
            _ ← reserve_available ids;
            inserted_id ← insert_booking (env_booking_id env)
                             (booking_doc payload total_amount (env_now_booking env));
            let booking_id := str_of_ObjectId inserted_id in
            match py_int (total_amount * float_of_int 100) with
            | None => raise (Unhandled (py_int_error (total_amount * float_of_int 100)))
            | Some amount =>
                let order := razorpay_order booking_id amount (env_gateway env) in
                match order_id order with
                | None => raise (Unhandled "KeyError")
                | Some order_ref =>
                    _ ← insert_payment (env_payment_id env)
                          (pay_doc booking_id total_amount order_ref (env_now_payment env));
                    mret {| q_bookingId := booking_id;
                            q_totalAmount := total_amount;
                            q_order := order;
                            q_razorpayKeyId := RAZORPAY_KEY_ID |}
                end
            end
        end
  end.

(** The optional signature check: [true] when the handler raises
    "Signature mismatch".  An absent or empty signature, or an empty
    secret, skips the check. *)
Definition signature_rejected (payload : RazorpayConfirmPayload) : bool :=
  match razorpay_signature payload with
  | Some sig =>
      if bool_decide (sig ≠ "" ∧ RAZORPAY_KEY_SECRET ≠ "") then
        let msg := razorpay_order_id payload +:+ "|" +:+ razorpay_payment_id payload in
        let dig := hmac_sha256_hexdigest RAZORPAY_KEY_SECRET msg in
        bool_decide (dig ≠ sig)
      else false
  | None => false
  end.

Definition confirm_payment (payload : RazorpayConfirmPayload) : M string :=
  if signature_rejected payload then raise signature_mismatch
  else
    bid ← oid (cp_bookingId payload);
    booking ← find_booking bid;
    match booking with
    | None => raise booking_not_found
    | Some booking =>
        _ ← update_booking bid (mark_paid (razorpay_payment_id payload));
        slot_ids ← mapM oid (b_slotIds booking);
        _ ← book_slots slot_ids;
        _ ← update_payment (cp_bookingId payload) (settle (razorpay_payment_id payload));
        mret "confirmed"
    end.

(** One request served: any of the three handlers, on any payload,
    returning or raising. *)
Inductive step : Store → Store → Prop :=
  | step_reserve payload db :
      step db (reserve_slots payload db).2
  | step_create payload env db :
      step db (create_booking payload env db).2
  | step_confirm payload db :
      step db (confirm_payment payload db).2.

Definition reachable : Store → Store → Prop := rtc step.

End Handlers.

(** ** The read handlers and the reviews

    [GET /api/venues/{venue_id}/slots], [GET /api/bookings] and
    [POST /api/reviews].  The first two only read the database. *)

(** [sort("startTime")]: strings compare byte by byte. *)
Definition by_startTime (a b : ObjectId * AvailabilitySlot) : Prop :=
  String.leb (s_startTime a.2) (s_startTime b.2) = true.

#[global] Instance by_startTime_dec a b : Decision (by_startTime a b).
Proof. unfold by_startTime. apply _. Defined.

(** [{"venueId": venue_id, "date": date}] *)
Definition slot_of (venue_id date : string) (kv : ObjectId * AvailabilitySlot) : Prop :=
  s_venueId kv.2 = venue_id ∧ s_date kv.2 = date.

#[global] Instance slot_of_dec venue_id date kv : Decision (slot_of venue_id date kv).
Proof. unfold slot_of. apply _. Defined.

(** [s["id"] = str(s.pop("_id"))], for a slot and for a booking. *)
Definition with_id {A} (kv : ObjectId * A) : string * A := (str_of_ObjectId kv.1, kv.2).

(** The items of [get_slots].  Among slots with the same start time the
    order is the one the collection gives, which MongoDB leaves open. *)
Definition get_slots (venue_id date : string) (db : Store)
  : list (string * AvailabilitySlot) :=
  with_id <$>
    merge_sort by_startTime
      (map_to_list (filter (slot_of venue_id date) (availabilityslot db))).

(** [if userId:] on an optional string: [None] and [""] are both false. *)
Definition given (o : option string) : option string :=
  match o with
  | Some s => if decide (s = "") then None else Some s
  | None => None
  end.

(** [[str(v["_id"]) for v in db["venue"].find({"ownerId": ownerId}, {"_id": 1})]] *)
Definition owner_venue_ids (ownerId : string) (db : Store) : list string :=
  str_of_ObjectId <$> (map_to_list (filter (λ kv, v_ownerId kv.2 = ownerId) (venue db))).*1.

(** The filter [filt] that [list_bookings] builds. *)
Definition booking_filter (userId ownerId : option string) (db : Store)
  (kv : ObjectId * Booking) : Prop :=
  match given userId with
  | Some u => b_userId kv.2 = u
  | None => True
  end ∧
  match given ownerId with
  | Some o => b_venueId kv.2 ∈ owner_venue_ids o db
  | None => True
  end.

#[global] Instance booking_filter_dec userId ownerId db kv :
  Decision (booking_filter userId ownerId db kv).
Proof. unfold booking_filter. destruct (given userId), (given ownerId); apply _. Defined.

(** [sort("created_at", -1)] *)
Definition newest_first (a b : ObjectId * Booking) : Prop :=
  (b_created_at b.2 ≤ b_created_at a.2)%Z.

#[global] Instance newest_first_dec a b : Decision (newest_first a b).
Proof. unfold newest_first. apply _. Defined.

(** The items of [list_bookings]; [role] is accepted and never read. *)
Definition list_bookings (userId ownerId role : option string) (db : Store)
  : list (string * Booking) :=
  with_id <$>
    merge_sort newest_first
      (map_to_list (filter (booking_filter userId ownerId db) (booking db))).

Record AddReview := {
  ar_userId : string;
  ar_venueId : string;
  ar_rating : Z;
  ar_comment : option string;
}.

Record Review := {
  r_userId : string;
  r_venueId : string;
  r_rating : Z;
  r_comment : option string;
  r_created_at : Z;
}.

(** The database with its [review] collection beside the collections of
    the booking core. *)
Record Site := {
  site_db : Store;
  review : gmap ObjectId Review;
}.

(** [{"userId": ..., "venueId": ..., "status": "confirmed"}] *)
Definition confirmed_booking_of (userId venueId : string) (kv : ObjectId * Booking) : Prop :=
  b_userId kv.2 = userId ∧ b_venueId kv.2 = venueId ∧
  b_status kv.2 = BookingStatus.confirmed.

#[global] Instance confirmed_booking_of_dec userId venueId kv :
  Decision (confirmed_booking_of userId venueId kv).
Proof. unfold confirmed_booking_of. apply _. Defined.

Definition review_forbidden : Exn := HTTPException 403 "Not allowed to review".

(** [insert_one] encodes an integer in 64 bits at most and raises
    [OverflowError] on any other, before it sends anything. *)
Definition bson_int (z : Z) : Prop := (- 2 ^ 63 ≤ z < 2 ^ 63)%Z.

#[global] Instance bson_int_dec z : Decision (bson_int z).
Proof. unfold bson_int. apply _. Defined.

(** [add_review]: [has] is what [find_one] returns, the first match if
    there is one; [new_id] is the [_id] the driver generates and [now]
    the reading of the clock.  The rating is stored as it was sent: the
    bounds that [schemas.Review] declares are not those of [AddReview]. *)
Definition add_review (payload : AddReview) (new_id : ObjectId) (now : Z) (site : Site)
  : Result string * Site :=
  let has :=
    head (map_to_list
            (filter (confirmed_booking_of (ar_userId payload) (ar_venueId payload))
               (booking (site_db site)))) in
  match has with
  | None => (Raised review_forbidden, site)
  | Some _ =>
      let doc := {| r_userId := ar_userId payload; r_venueId := ar_venueId payload;
                    r_rating := ar_rating payload; r_comment := ar_comment payload;
                    r_created_at := now |} in
      if decide (bson_int (ar_rating payload)) then
        match review site !! new_id with
        | Some _ => (Raised (Unhandled "DuplicateKeyError"), site)
        | None =>
            (Ok (str_of_ObjectId new_id),
             {| site_db := site_db site; review := <[new_id := doc]> (review site) |})
        end
      else (Raised (Unhandled "OverflowError"), site)
  end.

(** ** Properties of a database state *)

(** The slot that the string [sid] names exists and has status [st]. *)
Definition slot_in (db : Store) (st : SlotStatus.t) (sid : string) : Prop :=
  ∃ i s, ObjectId_of_str sid = Some i ∧ availabilityslot db !! i = Some s ∧ s_status s = st.

Definition slot_known (db : Store) (sid : string) : Prop :=
  ∃ i, ObjectId_of_str sid = Some i ∧ is_Some (availabilityslot db !! i).

(** [paymentStatus = paid] implies [status = confirmed] and every
    referenced slot [booked]. *)
Definition paid_consistent (db : Store) (b : Booking) : Prop :=
  b_paymentStatus b = PaymentStatus.paid →
  b_status b = BookingStatus.confirmed ∧
  ∀ sid, sid ∈ b_slotIds b → slot_in db SlotStatus.booked sid.

Definition paid_invariant (db : Store) : Prop :=
  ∀ id b, booking db !! id = Some b → paid_consistent db b.

(** Every slot a booking refers to is a well-formed id of a stored slot. *)
Definition references_known (db : Store) : Prop :=
  ∀ id b, booking db !! id = Some b → ∀ sid, sid ∈ b_slotIds b → slot_known db sid.

Definition store_inv (db : Store) : Prop := references_known db ∧ paid_invariant db.

(** No slot disappears and no booked slot leaves [booked]. *)
Definition slots_advance (m m' : gmap ObjectId AvailabilitySlot) : Prop :=
  ∀ i s, m !! i = Some s →
    ∃ s', m' !! i = Some s' ∧
          (s_status s = SlotStatus.booked → s_status s' = SlotStatus.booked).

(** The payment document that [update_one({"bookingId": booking_id}, ...)]
    addresses: the first one with that [bookingId]. *)
Definition payment_for (booking_id : string) (db : Store) : option Payment :=
  snd <$> List.find (λ kv, bool_decide (p_bookingId kv.2 = booking_id)) (payment db).

(** The database after each write of [create_booking]: the hold on the
    slots, the inserted booking, the inserted payment. *)
Definition after_hold (ids : list ObjectId) (db : Store) : Store :=
  set_availabilityslot (mark_reserved ids (availabilityslot db)) db.

Definition after_booking (ids : list ObjectId) (id : ObjectId) (doc : Booking) (db : Store)
  : Store :=
  set_booking (<[id := doc]> (booking db)) (after_hold ids db).

Definition after_payment (ids : list ObjectId) (id : ObjectId) (doc : Booking)
  (pid : ObjectId) (pdoc : Payment) (db : Store) : Store :=
  set_payment (payment db ++ [(pid, pdoc)]) (after_booking ids id doc db).

(** The database after the writes of [confirm_payment]: the booking
    marked paid, and then the slots booked and the payment settled. *)
Definition after_paid (bid : ObjectId) (txn : string) (db : Store) : Store :=
  set_booking (alter (mark_paid txn) bid (booking db)) db.

Definition after_confirm (bid : ObjectId) (booking_id txn : string) (ids : list ObjectId)
  (db : Store) : Store :=
  set_payment
    (update_first (λ kv, bool_decide (p_bookingId kv.2 = booking_id))
       (prod_map id (settle txn)) (payment db))
    (set_availabilityslot (mark_booked ids (availabilityslot db)) (after_paid bid txn db)).

(** ** What sequences of calls keep

    The single writes the handlers are made of, and relations between
    the database before and after a sequence of calls. *)

Inductive write : Store → Store → Prop :=
  | write_hold ids db :
      write db (set_availabilityslot (mark_reserved ids (availabilityslot db)) db)
  | write_book ids db :
      write db (set_availabilityslot (mark_booked ids (availabilityslot db)) db)
  | write_booking id doc db :
      booking db !! id = None →
      b_paymentStatus doc = PaymentStatus.pending →
      b_status doc = BookingStatus.pending →
      b_bookingCode doc = None →
      write db (set_booking (<[id := doc]> (booking db)) db)
  | write_paid id txn db :
      write db (set_booking (alter (mark_paid txn) id (booking db)) db)
  | write_payment id doc db :
      id ∉ (payment db).*1 →
      (∃ bid b, booking db !! bid = Some b ∧ p_bookingId doc = str_of_ObjectId bid ∧
                p_amount doc = b_totalAmount b) →
      write db (set_payment (payment db ++ [(id, doc)]) db)
  | write_settle booking_id txn db :
      write db (set_payment
                  (update_first (λ kv, bool_decide (p_bookingId kv.2 = booking_id))
                     (prod_map id (settle txn)) (payment db)) db).

(** A slot status moves forward only: it stays, or goes from
    [available] to [reserved], or becomes [booked]. *)
Definition status_forward (st st' : SlotStatus.t) : Prop :=
  st' = st ∨ (st = SlotStatus.available ∧ st' = SlotStatus.reserved) ∨
  st' = SlotStatus.booked.

(** The slots are the same documents, with statuses moved forward. *)
Definition slots_forward (db db' : Store) : Prop :=
  ∀ i, match availabilityslot db !! i, availabilityslot db' !! i with
       | Some s, Some s' =>
           s' = set_status (s_status s') s ∧ status_forward (s_status s) (s_status s')
       | None, None => True
       | _, _ => False
       end.

(** The venues are untouched; every booking is still stored, with the
    user, venue, slots, amounts and date it was created with, and paid
    if it was paid. *)
Definition bookings_kept (db db' : Store) : Prop :=
  venue db' = venue db ∧
  ∀ id b, booking db !! id = Some b →
    ∃ b', booking db' !! id = Some b' ∧
          b_userId b' = b_userId b ∧ b_venueId b' = b_venueId b ∧
          b_slotIds b' = b_slotIds b ∧ b_totalAmount b' = b_totalAmount b ∧
          b_commission b' = b_commission b ∧ b_created_at b' = b_created_at b ∧
          (b_paymentStatus b = PaymentStatus.paid → b_paymentStatus b' = PaymentStatus.paid).

(** Every payment is still stored under its id, for the same booking,
    amount and order, and paid if it was paid. *)
Definition payments_kept (db db' : Store) : Prop :=
  ∀ id p, (id, p) ∈ payment db →
    ∃ p', (id, p') ∈ payment db' ∧
          p_bookingId p' = p_bookingId p ∧ p_amount p' = p_amount p ∧
          p_orderId p' = p_orderId p ∧ p_gateway p' = p_gateway p ∧
          (p_status p = PaymentState.paid → p_status p' = PaymentState.paid).

(** A booking is either as created or as confirmed. *)
Definition booking_state_ok (b : Booking) : Prop :=
  (b_paymentStatus b = PaymentStatus.pending ∧ b_status b = BookingStatus.pending ∧
   b_bookingCode b = None) ∨
  (b_paymentStatus b = PaymentStatus.paid ∧ b_status b = BookingStatus.confirmed ∧
   is_Some (b_bookingCode b)).

Definition bookings_state_ok (db : Store) : Prop :=
  ∀ id b, booking db !! id = Some b → booking_state_ok b.

(** The payments have distinct ids, and each is for a stored booking
    and for its total. *)
Definition payments_refer (db : Store) : Prop :=
  NoDup (payment db).*1 ∧
  ∀ id p, (id, p) ∈ payment db →
    ∃ bid b, booking db !! bid = Some b ∧ p_bookingId p = str_of_ObjectId bid ∧
             p_amount p = b_totalAmount b.

(** ** Sample data

    A venue at 500 an hour with four slots, used to run the handlers on
    concrete requests. *)

Definition sample_slot (st : SlotStatus.t) : AvailabilitySlot :=
  {| s_venueId := "0000000000000000000000a0"; s_date := "2025-01-01";
     s_startTime := "06:00"; s_endTime := "07:00"; s_status := st |}.

Definition sample_db : Store :=
  {| venue := {[ 160%N := {| v_ownerId := "owner"; v_name := "Emerald Arena";
                             v_pricePerHour := Some 500%float |} ]};
     availabilityslot :=
       <[ 1%N := sample_slot SlotStatus.available ]>
       (<[ 2%N := sample_slot SlotStatus.booked ]>
       (<[ 3%N := sample_slot SlotStatus.available ]>
       (<[ 4%N := sample_slot SlotStatus.reserved ]> ∅)));
     booking := ∅;
     payment := [] |}.

Definition slot1 : string := "000000000000000000000001".
Definition slot2 : string := "000000000000000000000002".
Definition slot3 : string := "000000000000000000000003".
Definition slot4 : string := "000000000000000000000004".

Definition sample_venue : string := "0000000000000000000000a0".

(** The id strings of the documents the sample booking inserts:
    [100 = 0x64]. *)
Definition sample_booking_id : string := "000000000000000000000064".

Definition sample_env : Environment :=
  {| env_booking_id := 100%N; env_payment_id := 200%N;
     env_now_booking := 1735689600; env_now_payment := 1735689601;
     env_gateway := None |}.

Definition sample_request : CreateBookingPayload :=
  {| cb_userId := "player"; cb_venueId := sample_venue; cb_slotIds := [slot1; slot3] |}.

(** The handlers take the digest function as a parameter; the sample
    runs use this stand-in for it. *)
Definition sample_digest (key msg : string) : string := key +:+ "/" +:+ msg.

Definition sample_confirmation (sig : option string) : RazorpayConfirmPayload :=
  {| cp_bookingId := sample_booking_id; razorpay_payment_id := "pay_1";
     razorpay_order_id := "order_000000000000000000000064";
     razorpay_signature := sig |}.

(** The sample database after the sample booking, made without gateway
    credentials, and after its confirmation. *)
Definition sample_booked_db : Store :=
  (create_booking "" "" sample_request sample_env sample_db).2.

Definition sample_confirmed_db : Store :=
  (confirm_payment "" sample_digest (sample_confirmation None) sample_booked_db).2.

(** A second environment, with document ids of its own. *)
Definition sample_env2 : Environment :=
  {| env_booking_id := 101%N; env_payment_id := 201%N;
     env_now_booking := 1735689700; env_now_payment := 1735689701;
     env_gateway := None |}.

(** A reply of the gateway, and a reply that lacks its ["id"]. *)
Definition sample_remote_order : Order :=
  {| order_id := Some "order_Nq2"; order_amount := 100000; order_currency := "INR" |}.

Definition sample_env_remote : Environment :=
  {| env_booking_id := 100%N; env_payment_id := 200%N;
     env_now_booking := 1735689600; env_now_payment := 1735689601;
     env_gateway := Some sample_remote_order |}.

Definition sample_env_no_order_id : Environment :=
  {| env_booking_id := 100%N; env_payment_id := 200%N;
     env_now_booking := 1735689600; env_now_payment := 1735689601;
     env_gateway := Some {| order_id := None; order_amount := 100000;
                            order_currency := "INR" |} |}.

(** A review of the sample venue by the player of the sample booking,
    with a rating outside 1..5, and a site without reviews. *)
Definition sample_review : AddReview :=
  {| ar_userId := "player"; ar_venueId := sample_venue; ar_rating := 9;
     ar_comment := None |}.

Definition sample_site (db : Store) : Site := {| site_db := db; review := ∅ |}.

(** An environment whose booking id has letters in its printed form:
    [171 = 0xab]; the database after the sample booking is made under
    it, and a confirmation that spells the id in upper case. *)
Definition sample_env_ab : Environment :=
  {| env_booking_id := 171%N; env_payment_id := 200%N;
     env_now_booking := 1735689600; env_now_payment := 1735689601;
     env_gateway := None |}.

Definition sample_booked_db_ab : Store :=
  (create_booking "" "" sample_request sample_env_ab sample_db).2.

Definition sample_confirmation_upper_case : RazorpayConfirmPayload :=
  {| cp_bookingId := "0000000000000000000000AB"; razorpay_payment_id := "pay_1";
     razorpay_order_id := "order_0000000000000000000000ab";
     razorpay_signature := None |}.

(** * Properties *)

(** ** Object ids and numbers *)

Lemma hex_digit_hex_char (d : N) : (d < 16)%N → hex_digit (hex_char d) = Some d.
Proof.
  intros Hd.
  assert (d ∈ (N.of_nat <$> seq 0 16)) as Hin.
  { apply list_elem_of_fmap. exists (N.to_nat d). split; [lia|].
    apply elem_of_seq. lia. }
  cbn in Hin. repeat (apply elem_of_cons in Hin as [->|Hin]; [reflexivity|]).
  by apply elem_of_nil in Hin.
Qed.

Lemma length_hexlify k n s : String.length (hexlify k n s) = (k + String.length s)%nat.
Proof.
  revert n s. induction k as [|k IH]; intros n s; [done|].
  cbn [hexlify]. rewrite IH. cbn. lia.
Qed.

Lemma is_space_hex_char (d : N) : (d < 16)%N → is_space (hex_char d) = false.
Proof.
  intros Hd.
  assert (d ∈ (N.of_nat <$> seq 0 16)) as Hin.
  { apply list_elem_of_fmap. exists (N.to_nat d). split; [lia|].
    apply elem_of_seq. lia. }
  cbn in Hin. repeat (apply elem_of_cons in Hin as [->|Hin]; [reflexivity|]).
  by apply elem_of_nil in Hin.
Qed.

Lemma fromhex_hexlify k n a len s :
  fromhex a len (hexlify (2 * k) n s)
  = fromhex (a * 256 ^ N.of_nat k + n mod 256 ^ N.of_nat k)%N (len + k) s.
Proof.
  revert n a len s. induction k as [|k IH]; intros n a len s.
  - cbn [Nat.mul hexlify]. f_equal; [|lia]. rewrite N.mod_1_r. cbn. lia.
  - replace (2 * S k)%nat with (S (S (2 * k))) by lia. cbn [hexlify].
    replace (n / 16 / 16)%N with (n / 256)%N
      by (rewrite N.Div0.div_div; reflexivity).
    rewrite IH. cbn [fromhex].
    rewrite is_space_hex_char by (apply N.mod_lt; lia).
    rewrite !hex_digit_hex_char by (apply N.mod_lt; lia).
    f_equal; [|lia].
    rewrite Nat2N.inj_succ, N.pow_succ_r'.
    pose proof (N.Div0.mod_mul_r n 256 (256 ^ N.of_nat k)) as Hbytes.
    pose proof (N.Div0.mod_mul_r n 16 16) as Hdigits.
    change (16 * 16)%N with 256%N in Hdigits. lia.
Qed.

(** The string of a 12-byte id reads back as that id. *)
Lemma ObjectId_of_str_of_ObjectId (o : ObjectId) :
  (o < 2 ^ 96)%N → ObjectId_of_str (str_of_ObjectId o) = Some o.
Proof.
  intros Ho. unfold ObjectId_of_str, str_of_ObjectId.
  rewrite N.div_small, N.mod_small by done.
  change (2 * (12 - N.to_nat 0))%nat with (2 * 12)%nat.
  rewrite length_hexlify. cbn [String.length Nat.add Nat.mul Nat.eqb].
  change 24%nat with (2 * 12)%nat. rewrite fromhex_hexlify. cbn [fromhex].
  f_equal. change (256 ^ N.of_nat 12)%N with (2 ^ 96)%N.
  rewrite N.mod_small by done. cbn. lia.
Qed.

(** Reading an id does not depend on the case of its letters, and
    printing gives the lower case. *)
Example ObjectId_case :
  ObjectId_of_str "5F1D7F3E1C9D440000A1B2C3" = ObjectId_of_str "5f1d7f3e1c9d440000a1b2c3" ∧
  str_of_ObjectId <$> ObjectId_of_str "5F1D7F3E1C9D440000A1B2C3"
  = Some "5f1d7f3e1c9d440000a1b2c3".
Proof. split; reflexivity. Qed.

Example ObjectId_malformed :
  ObjectId_of_str "5f1d7f3e1c9d440000a1b2c" = None ∧
  ObjectId_of_str "5f1d7f3e1c9d440000a1b2cg" = None.
Proof. split; reflexivity. Qed.

(** White space before a pair of digits is skipped and leaves an id of
    fewer bytes, here of 8; inside a pair it is refused. *)
Example ObjectId_white_space :
  ObjectId_of_str "00 00 00 00 00 00 00 2a " = Some (42 + 4 * 2 ^ 96)%N ∧
  str_of_ObjectId (42 + 4 * 2 ^ 96)%N = "000000000000002a" ∧
  ObjectId_of_str "5 f1d7f3e1c9d440000a1b2c" = None.
Proof. repeat split; vm_compute; reflexivity. Qed.

(** [round(2.675, 2) == 2.67], [round(0.125, 2) == 0.12],
    [round(0.375, 2) == 0.38], [round(1000.0, 2) == 1000.0]. *)
Example py_round2_values :
  py_round2 0x1.5666666666666p+1 = 0x1.55c28f5c28f5cp+1%float ∧
  py_round2 0.125 = 0x1.eb851eb851eb8p-4%float ∧
  py_round2 0.375 = 0x1.851eb851eb852p-2%float ∧
  py_round2 1000 = 1000%float.
Proof. repeat split; vm_compute; reflexivity. Qed.

(** [int(1234.5678 * 100) == 123456], [int(-0.5) == 0], and [int] of an
    overflowed product raises. *)
Example py_int_values :
  py_int (0x1.34a456d5cfaadp+10 * 100) = Some 123456%Z ∧
  py_int (-0.5) = Some 0%Z ∧
  py_int (0x1.1ccf385ebc8ap+1023 * 2) = None.
Proof. repeat split; vm_compute; reflexivity. Qed.

(** ** Running the monad *)

Lemma bind_run {A B} (m : M A) (f : A → M B) (db : Store) :
  (m ≫= f) db =
  match m db with
  | (Ok a, db') => f a db'
  | (Raised e, db') => (Raised e, db')
  end.
Proof. reflexivity. Qed.

Lemma mapM_oid_run (l : list string) (db : Store) :
  mapM oid l db =
  match mapM ObjectId_of_str l with
  | Some ids => (Ok ids, db)
  | None => (Raised invalid_id, db)
  end.
Proof.
  induction l as [|s l IH]; [done|].
  cbn [mapM]. rewrite bind_run. unfold oid at 1.
  destruct (ObjectId_of_str s) as [o|]; [|done]. cbn.
  rewrite bind_run, IH.
  destruct (mapM ObjectId_of_str l); done.
Qed.

Lemma mapM_parse_NoDup (l : list string) (ids : list ObjectId) :
  mapM ObjectId_of_str l = Some ids → NoDup ids → NoDup l.
Proof.
  intros Hl%mapM_Some_1. induction Hl as [|s i l ids Hs Hl IH]; [intros _; constructor|].
  intros [Hi Hnd]%NoDup_cons. apply NoDup_cons. split; [|by apply IH].
  intros Hin. apply Hi. clear -Hs Hl Hin.
  induction Hl as [|s' i' l ids Hs' Hl IH]; [by apply elem_of_nil in Hin|].
  apply elem_of_cons in Hin as [->|Hin].
  - assert (i = i') as -> by congruence. apply elem_of_cons. by left.
  - apply elem_of_cons. right. by apply IH.
Qed.

Lemma mapM_parse_elem (l : list string) (ids : list ObjectId) (sid : string) :
  mapM ObjectId_of_str l = Some ids → sid ∈ l →
  ∃ i, ObjectId_of_str sid = Some i ∧ i ∈ ids.
Proof.
  intros Hl%mapM_Some_1 Hin. induction Hl as [|s i l ids Hs Hl IH].
  - by apply elem_of_nil in Hin.
  - apply elem_of_cons in Hin as [->|Hin].
    + exists i. split; [done|]. apply elem_of_cons. by left.
    + destruct (IH Hin) as (j & Hj & Hjin). exists j. split; [done|].
      apply elem_of_cons. by right.
Qed.

(** ** Counting the documents an [$in] filter matches *)

Section counting.
Context {A : Type}.
Implicit Types (m : gmap ObjectId A) (ids : list ObjectId).

Lemma size_list_to_set_le ids : size (list_to_set ids : gset ObjectId) ≤ length ids.
Proof.
  induction ids as [|x l IH]; [done|]. cbn [list_to_set length].
  destruct (decide (x ∈ l)) as [Hx|Hx].
  - rewrite (subseteq_union_1_L (C:=gset ObjectId) {[x]} (list_to_set l))
      by (apply singleton_subseteq_l, elem_of_list_to_set, Hx).
    lia.
  - rewrite size_union, size_singleton; [lia|].
    apply disjoint_singleton_l. by rewrite elem_of_list_to_set.
Qed.

Lemma size_list_to_set_lt ids :
  ¬ NoDup ids → size (list_to_set ids : gset ObjectId) < length ids.
Proof.
  induction ids as [|x l IH]; intros Hnd.
  - destruct Hnd. constructor.
  - cbn [list_to_set length]. destruct (decide (x ∈ l)) as [Hx|Hx].
    + rewrite (subseteq_union_1_L (C:=gset ObjectId) {[x]} (list_to_set l))
        by (apply singleton_subseteq_l, elem_of_list_to_set, Hx).
      pose proof (size_list_to_set_le l). lia.
    + assert (¬ NoDup l) as Hl by (intros ?; apply Hnd; by constructor).
      specialize (IH Hl).
      rewrite size_union, size_singleton; [lia|].
      apply disjoint_singleton_l. by rewrite elem_of_list_to_set.
Qed.

Context (P : ObjectId * A → Prop) `{!∀ kv, Decision (P kv)}.

Lemma size_filter_ids m ids :
  (∀ k v, P (k, v) → k ∈ ids) →
  size (filter P m) ≤ size (list_to_set ids : gset ObjectId).
Proof.
  intros HP. rewrite <-size_dom. apply subseteq_size.
  intros k [v Hv]%elem_of_dom. apply map_lookup_filter_Some in Hv as [_ Hv].
  apply elem_of_list_to_set. eauto.
Qed.

Lemma size_filter_ids_missing m ids x :
  (∀ k v, P (k, v) → k ∈ ids) →
  x ∈ ids → (∀ v, m !! x = Some v → ¬ P (x, v)) →
  size (filter P m) < size (list_to_set ids : gset ObjectId).
Proof.
  intros HP Hx Hno. rewrite <-size_dom. apply subset_size.
  split.
  - intros k [v Hv]%elem_of_dom. apply map_lookup_filter_Some in Hv as [_ Hv].
    apply elem_of_list_to_set. eauto.
  - intros Hsub. assert (x ∈ dom (filter P m)) as [v Hv]%elem_of_dom.
    { apply Hsub, elem_of_list_to_set, Hx. }
    apply map_lookup_filter_Some in Hv as [Hv HPv]. by eapply Hno.
Qed.

Lemma size_filter_ids_all m ids :
  (∀ k v, P (k, v) → k ∈ ids) →
  NoDup ids → (∀ x, x ∈ ids → ∃ v, m !! x = Some v ∧ P (x, v)) →
  size (filter P m) = length ids.
Proof.
  intros HP Hnd Hall.
  rewrite <-size_dom, <-(size_list_to_set (C:=gset ObjectId)) by done.
  f_equal. apply dom_filter_L. intros i. rewrite elem_of_list_to_set. split.
  - apply Hall.
  - intros (v & _ & Hv). eauto.
Qed.

(** When the filter matches as many documents as there are ids, the
    ids are distinct and each one names a matching document. *)
Lemma size_filter_ids_full m ids :
  (∀ k v, P (k, v) → k ∈ ids) →
  size (filter P m) = length ids →
  NoDup ids ∧ ∀ x, x ∈ ids → ∃ v, m !! x = Some v ∧ P (x, v).
Proof.
  intros HP Hsz. split.
  - destruct (decide (NoDup ids)) as [|Hnd]; [done|].
    pose proof (size_filter_ids m ids HP). pose proof (size_list_to_set_lt ids Hnd). lia.
  - intros x Hx. destruct (m !! x) as [v|] eqn:Hv.
    + destruct (decide (P (x, v))) as [|Hn]; [by eauto|].
      pose proof (size_filter_ids_missing m ids x HP Hx) as Hlt.
      pose proof (size_list_to_set_le ids).
      assert (size (filter P m) < size (list_to_set ids : gset ObjectId)); [|lia].
      apply Hlt. intros v' Hv'. congruence.
    + pose proof (size_filter_ids_missing m ids x HP Hx) as Hlt.
      pose proof (size_list_to_set_le ids).
      assert (size (filter P m) < size (list_to_set ids : gset ObjectId)); [|lia].
      apply Hlt. intros v' Hv'. congruence.
Qed.
End counting.

(** ** [reserve_slots] *)

Lemma lookup_mark_reserved ids (m : gmap ObjectId AvailabilitySlot) k :
  mark_reserved ids m !! k =
  (λ s, if decide (matches_available ids (k, s))
        then set_status SlotStatus.reserved s else s) <$> m !! k.
Proof. unfold mark_reserved. rewrite map_lookup_imap. by destruct (m !! k). Qed.

Lemma reserve_slots_run payload db :
  reserve_slots payload db =
  match mapM ObjectId_of_str (rp_slotIds payload) with
  | None => (Raised invalid_id, db)
  | Some ids =>
      let db' := set_availabilityslot (mark_reserved ids (availabilityslot db)) db in
      if decide (size (filter (matches_available ids) (availabilityslot db)) ≠ length ids)
      then (Raised slot_conflict, db')
      else (Ok (rp_slotIds payload), db')
  end.
Proof.
  unfold reserve_slots. rewrite bind_run, mapM_oid_run.
  destruct (mapM ObjectId_of_str (rp_slotIds payload)) as [ids|]; [|done].
  rewrite bind_run. unfold reserve_available. cbn beta iota zeta.
  by case_decide.
Qed.

Lemma matches_available_in ids k (s : AvailabilitySlot) :
  matches_available ids (k, s) → k ∈ ids.
Proof. by intros [? _]. Qed.

(** The update matches fewer documents than the request has ids as soon
    as one id names no available slot, or an id is repeated. *)
Lemma modified_count_short ids (m : gmap ObjectId AvailabilitySlot) :
  (¬ NoDup ids ∨
   ∃ x, x ∈ ids ∧ ∀ s, m !! x = Some s → s_status s ≠ SlotStatus.available) →
  size (filter (matches_available ids) m) ≠ length ids.
Proof.
  intros [Hnd|(x & Hx & Hno)].
  - pose proof (size_filter_ids (matches_available ids) m ids (matches_available_in ids)).
    pose proof (size_list_to_set_lt ids Hnd). lia.
  - pose proof (size_list_to_set_le ids).
    assert (size (filter (matches_available ids) m)
            < size (list_to_set ids : gset ObjectId)); [|lia].
    apply (size_filter_ids_missing _ m ids x (matches_available_in ids) Hx).
    intros s Hs [_ Hst]. by eapply Hno.
Qed.

(** A request of distinct ids of available slots is served: it returns
    the ids and every slot it names is reserved. *)
Lemma reserve_slots_ok payload db ids :
  mapM ObjectId_of_str (rp_slotIds payload) = Some ids →
  NoDup ids →
  (∀ i, i ∈ ids →
     ∃ s, availabilityslot db !! i = Some s ∧ s_status s = SlotStatus.available) →
  ∃ db',
    reserve_slots payload db = (Ok (rp_slotIds payload), db') ∧
    ∀ i, i ∈ ids →
      ∃ s, availabilityslot db !! i = Some s ∧
           availabilityslot db' !! i = Some (set_status SlotStatus.reserved s).
Proof.
  intros Hids Hnd Hall. rewrite reserve_slots_run, Hids. cbn zeta.
  rewrite decide_False.
  - eexists. split; [done|]. intros i Hi. destruct (Hall i Hi) as (s & Hs & Hav).
    exists s. split; [done|]. cbn. rewrite lookup_mark_reserved, Hs. cbn.
    by rewrite decide_True.
  - intros Hne. apply Hne.
    apply (size_filter_ids_all _ _ ids (matches_available_in ids) Hnd).
    intros i Hi. destruct (Hall i Hi) as (s & Hs & Hav). by exists s.
Qed.

(** C1, as the code has it.  When some slot of the request is not
    available (reserved, booked, blocked or missing), [reserve_slots]
    raises the 409 conflict; the slots that were not available and the
    slots outside the request keep their state, as do the other
    collections, but every slot of the request that was available has
    been moved to [reserved] and stays so: nothing is rolled back. *)
Theorem reserve_slots_conflict payload db ids x :
  mapM ObjectId_of_str (rp_slotIds payload) = Some ids →
  x ∈ ids →
  (∀ s, availabilityslot db !! x = Some s → s_status s ≠ SlotStatus.available) →
  ∃ db',
    reserve_slots payload db = (Raised slot_conflict, db') ∧
    venue db' = venue db ∧ booking db' = booking db ∧ payment db' = payment db ∧
    (∀ k, k ∉ ids → availabilityslot db' !! k = availabilityslot db !! k) ∧
    (∀ k, availabilityslot db !! k = None → availabilityslot db' !! k = None) ∧
    (∀ k s, availabilityslot db !! k = Some s → s_status s ≠ SlotStatus.available →
            availabilityslot db' !! k = Some s) ∧
    (∀ k s, k ∈ ids → availabilityslot db !! k = Some s →
            s_status s = SlotStatus.available →
            availabilityslot db' !! k = Some (set_status SlotStatus.reserved s)).
Proof.
  intros Hids Hx Hno. rewrite reserve_slots_run, Hids. cbn zeta.
  rewrite decide_True by (apply modified_count_short; eauto).
  eexists. split; [done|]. cbn. repeat split.
  - intros k Hk. rewrite lookup_mark_reserved.
    destruct (availabilityslot db !! k) as [s|]; [|done]. cbn.
    rewrite decide_False; [done|]. by intros [? _].
  - intros k Hk. by rewrite lookup_mark_reserved, Hk.
  - intros k s Hk Hs. rewrite lookup_mark_reserved, Hk. cbn.
    rewrite decide_False; [done|]. by intros [_ ?].
  - intros k s Hin Hk Hs. rewrite lookup_mark_reserved, Hk. cbn.
    by rewrite decide_True.
Qed.

Lemma reserve_slots_conflict_witness :
  ∃ db',
    reserve_slots {| rp_userId := "u"; rp_slotIds := [slot1; slot2] |} sample_db
    = (Raised slot_conflict, db') ∧
    s_status <$> availabilityslot db' !! 1%N = Some SlotStatus.reserved ∧
    s_status <$> availabilityslot db' !! 2%N = Some SlotStatus.booked.
Proof.
  destruct (reserve_slots_conflict
              {| rp_userId := "u"; rp_slotIds := [slot1; slot2] |}
              sample_db [1%N; 2%N] 2%N)
    as (db' & Hrun & _ & _ & _ & _ & _ & Hkeep & Hres).
  - reflexivity.
  - apply elem_of_cons; right; apply elem_of_cons; left; reflexivity.
  - intros s Hs. vm_compute in Hs. injection Hs as <-. discriminate.
  - exists db'. split; [exact Hrun|]. split.
    + rewrite (Hres 1%N (sample_slot SlotStatus.available));
        [reflexivity| |reflexivity|reflexivity].
      apply elem_of_cons; left; reflexivity.
    + rewrite (Hkeep 2%N (sample_slot SlotStatus.booked));
        [reflexivity|reflexivity|discriminate].
Defined.

(** C1 as stated fails: with slot 1 available and slot 2 booked,
    reserving both raises the conflict and yet leaves slot 1 reserved. *)
Lemma reserve_slots_not_all_or_nothing :
  s_status <$> availabilityslot sample_db !! 2%N = Some SlotStatus.booked ∧
  (reserve_slots {| rp_userId := "u"; rp_slotIds := [slot1; slot2] |} sample_db).1
  = Raised slot_conflict ∧
  s_status <$> availabilityslot sample_db !! 1%N = Some SlotStatus.available ∧
  s_status <$> availabilityslot
    (reserve_slots {| rp_userId := "u"; rp_slotIds := [slot1; slot2] |} sample_db).2 !! 1%N
  = Some SlotStatus.reserved.
Proof. vm_compute. repeat split. Qed.

(** C10.  A request that lists an id twice raises the 409 conflict
    whatever the state of the slots, all available included: the number
    of modified documents is compared with the length of the list. *)
Theorem reserve_slots_duplicate_conflict payload db ids :
  mapM ObjectId_of_str (rp_slotIds payload) = Some ids →
  ¬ NoDup (rp_slotIds payload) →
  (reserve_slots payload db).1 = Raised slot_conflict.
Proof.
  intros Hids Hdup. rewrite reserve_slots_run, Hids. cbn zeta.
  rewrite decide_True; [done|]. apply modified_count_short. left.
  intros Hnd. apply Hdup. by eapply mapM_parse_NoDup.
Qed.

Lemma reserve_slots_duplicate_conflict_witness :
  s_status <$> availabilityslot sample_db !! 1%N = Some SlotStatus.available ∧
  (reserve_slots {| rp_userId := "u"; rp_slotIds := [slot1; slot1] |} sample_db).1
  = Raised slot_conflict.
Proof.
  split; [reflexivity|].
  apply (reserve_slots_duplicate_conflict
           {| rp_userId := "u"; rp_slotIds := [slot1; slot1] |} sample_db [1%N; 1%N]).
  - reflexivity.
  - intros Hnd. apply NoDup_cons in Hnd as [Hnotin _]. apply Hnotin.
    apply elem_of_cons; left; reflexivity.
Defined.

(** ** [create_booking] *)

Section HandlerProperties.

(** The two credentials and the digest function the handlers are run
    with. *)
Variable key_id : string.
Variable secret : string.
Variable hmac : string → string → string.

Lemma create_booking_run payload env db :
  create_booking key_id secret payload env db =
  match ObjectId_of_str (cb_venueId payload) with
  | None => (Raised invalid_id, db)
  | Some vid =>
    match venue db !! vid with
    | None => (Raised venue_not_found, db)
    | Some v =>
      let total := total_amount_for v payload in
      match mapM ObjectId_of_str (cb_slotIds payload) with
      | None => (Raised invalid_id, db)
      | Some ids =>
        let slots := map_to_list (filter (λ kv, kv.1 ∈ ids) (availabilityslot db)) in
        if decide (length slots ≠ length ids) then (Raised invalid_slots, db)
        else
          match filter (λ kv : ObjectId * AvailabilitySlot, bookable kv.2 = false) slots with
          | _ :: _ => (Raised slot_not_bookable, db)
          | [] =>
            let bid := env_booking_id env in
            let doc := booking_doc payload total (env_now_booking env) in
            match booking db !! bid with
            | Some _ => (Raised (Unhandled "DuplicateKeyError"), after_hold ids db)
            | None =>
              let db2 := after_booking ids bid doc db in
              match py_int (total * float_of_int 100) with
              | None =>
                  (Raised (Unhandled (py_int_error (total * float_of_int 100))), db2)
              | Some amount =>
                let order :=
                  razorpay_order key_id secret (str_of_ObjectId bid) amount
                    (env_gateway env) in
                match order_id order with
                | None => (Raised (Unhandled "KeyError"), db2)
                | Some order_ref =>
                  let pdoc := pay_doc (str_of_ObjectId bid) total order_ref
                                (env_now_payment env) in
                  if decide (env_payment_id env ∈ (payment db).*1)
                  then (Raised (Unhandled "DuplicateKeyError"), db2)
                  else (Ok {| q_bookingId := str_of_ObjectId bid;
                              q_totalAmount := total;
                              q_order := order;
                              q_razorpayKeyId := key_id |},
                        after_payment ids bid doc (env_payment_id env) pdoc db)
                end
              end
            end
          end
      end
    end
  end.
Proof.
  unfold create_booking. rewrite bind_run. unfold oid at 1.
  destruct (ObjectId_of_str (cb_venueId payload)) as [vid|]; [|done].
  cbn -[mapM]. rewrite bind_run. cbn -[mapM].
  destruct (venue db !! vid) as [v|]; [|done].
  rewrite bind_run, mapM_oid_run.
  destruct (mapM ObjectId_of_str (cb_slotIds payload)) as [ids|]; [|done].
  cbn zeta. rewrite bind_run. cbn -[filter map_to_list].
  case_decide; [done|].
  destruct (filter (λ kv : ObjectId * AvailabilitySlot, bookable kv.2 = false) _)
    as [|? ?]; [|done].
  rewrite bind_run. cbn -[filter]. rewrite bind_run.
  unfold insert_booking at 1. cbn -[filter].
  destruct (booking db !! env_booking_id env); [done|].
  destruct (py_int _) as [amount|]; [|done].
  destruct (order_id _) as [order_ref|]; [|done].
  rewrite bind_run. unfold insert_payment. cbn -[filter].
  case_decide; done.
Qed.

(** The slots [find] returns for a list of distinct ids of stored slots
    are as many as the ids. *)
Lemma found_slots_length (ids : list ObjectId) (m : gmap ObjectId AvailabilitySlot) :
  NoDup ids → (∀ i, i ∈ ids → is_Some (m !! i)) →
  length (map_to_list (filter (λ kv, kv.1 ∈ ids) m)) = length ids.
Proof.
  intros Hnd Hall. rewrite length_map_to_list.
  apply (size_filter_ids_all (λ kv : ObjectId * AvailabilitySlot, kv.1 ∈ ids)); [done..|].
  intros x Hx. destruct (Hall x Hx) as [v Hv]. eauto.
Qed.

Lemma found_slots_full (ids : list ObjectId) (m : gmap ObjectId AvailabilitySlot) :
  length (map_to_list (filter (λ kv, kv.1 ∈ ids) m)) = length ids →
  NoDup ids ∧ ∀ i, i ∈ ids → is_Some (m !! i).
Proof.
  rewrite length_map_to_list. intros Hsz.
  destruct (size_filter_ids_full (λ kv : ObjectId * AvailabilitySlot, kv.1 ∈ ids) m ids)
    as [Hnd Hall]; [done..|].
  split; [done|]. intros i Hi. destruct (Hall i Hi) as (v & Hv & _). eauto.
Qed.

Lemma found_slot_elem (ids : list ObjectId) (m : gmap ObjectId AvailabilitySlot) i s :
  i ∈ ids → m !! i = Some s →
  (i, s) ∈ map_to_list (filter (λ kv : ObjectId * AvailabilitySlot, kv.1 ∈ ids) m).
Proof.
  intros Hi Hs. apply elem_of_map_to_list, map_lookup_filter_Some. by split.
Qed.

Lemma no_invalid_slots (ids : list ObjectId) (m : gmap ObjectId AvailabilitySlot) :
  (∀ i, i ∈ ids → ∃ s, m !! i = Some s ∧ bookable s = true) →
  filter (λ kv : ObjectId * AvailabilitySlot, bookable kv.2 = false)
    (map_to_list (filter (λ kv, kv.1 ∈ ids) m)) = [].
Proof.
  intros Hall.
  destruct (filter _ (map_to_list _)) as [|[k s] l] eqn:Hf; [done|].
  assert ((k, s) ∈ filter (λ kv : ObjectId * AvailabilitySlot, bookable kv.2 = false)
            (map_to_list (filter (λ kv : ObjectId * AvailabilitySlot, kv.1 ∈ ids) m)))
    as [Hbad Hin]%list_elem_of_filter.
  { rewrite Hf. apply elem_of_cons. by left. }
  apply elem_of_map_to_list, map_lookup_filter_Some in Hin as [Hk Hkin].
  destruct (Hall k Hkin) as (s' & Hs' & Hok). cbn in Hbad. congruence.
Qed.

Lemma bookable_false_iff s :
  bookable s = false ↔
  s_status s = SlotStatus.booked ∨ s_status s = SlotStatus.blocked.
Proof.
  unfold bookable. destruct (s_status s); split; intros H;
    try discriminate; try (destruct H; discriminate); auto.
Qed.

(** C5.  When a slot the request refers to is stored as [booked] or
    [blocked], [create_booking] raises one of its four validation
    errors and leaves the whole database as it was: no slot changes and
    no booking is inserted.  The error is "Some slots are not bookable"
    (409) whenever the earlier checks pass, that is when the venue
    exists and the slot ids are well formed, distinct and all stored. *)
Theorem create_booking_terminal_slot payload env db sid i s :
  sid ∈ cb_slotIds payload →
  ObjectId_of_str sid = Some i →
  availabilityslot db !! i = Some s →
  s_status s = SlotStatus.booked ∨ s_status s = SlotStatus.blocked →
  (∃ e, create_booking key_id secret payload env db = (Raised e, db) ∧
        e ∈ [invalid_id; venue_not_found; invalid_slots; slot_not_bookable]) ∧
  (∀ vid ids,
     ObjectId_of_str (cb_venueId payload) = Some vid →
     is_Some (venue db !! vid) →
     mapM ObjectId_of_str (cb_slotIds payload) = Some ids →
     NoDup ids →
     (∀ j, j ∈ ids → is_Some (availabilityslot db !! j)) →
     create_booking key_id secret payload env db = (Raised slot_not_bookable, db)).
Proof.
  intros Hsid Hi Hs Hterm%bookable_false_iff.
  assert (∀ ids, mapM ObjectId_of_str (cb_slotIds payload) = Some ids →
            filter (λ kv : ObjectId * AvailabilitySlot, bookable kv.2 = false)
              (map_to_list (filter (λ kv, kv.1 ∈ ids) (availabilityslot db))) ≠ [])
    as Hbad.
  { intros ids Hids Hnil.
    destruct (mapM_parse_elem _ _ _ Hids Hsid) as (i' & Hi' & Hin).
    assert (i' = i) as -> by congruence.
    eapply (filter_nil_not_elem_of _ _ (i, s)); [exact Hnil|done|].
    by apply found_slot_elem. }
  split.
  - rewrite create_booking_run.
    destruct (ObjectId_of_str (cb_venueId payload)) as [vid|];
      [|eexists; split; [done|repeat constructor]].
    destruct (venue db !! vid) as [v|]; [|eexists; split; [done|repeat constructor]].
    destruct (mapM ObjectId_of_str (cb_slotIds payload)) as [ids|];
      [|eexists; split; [done|repeat constructor]].
    cbn zeta. case_decide; [eexists; split; [done|repeat constructor]|].
    specialize (Hbad ids eq_refl).
    destruct (filter (λ kv : ObjectId * AvailabilitySlot, bookable kv.2 = false) _)
      as [|? ?]; [done|eexists; split; [done|repeat constructor]].
  - intros vid ids Hvid [v Hv] Hids Hnd Hall.
    rewrite create_booking_run, Hvid, Hv, Hids. cbn zeta.
    rewrite decide_False by (rewrite found_slots_length; auto).
    specialize (Hbad ids Hids).
    destruct (filter (λ kv : ObjectId * AvailabilitySlot, bookable kv.2 = false) _)
      as [|? ?]; done.
Qed.

(** C6.  A call of [create_booking] that returns has stored, under the
    id it reports, a booking whose total is [round(P * max(1, N), 2)]
    and whose commission is [round(total * 0.1, 2)], for the price per
    hour [P] of the venue and the number [N] of slot ids in the request;
    the reply carries the same total. *)
Theorem create_booking_amounts payload env db vid v q db' :
  ObjectId_of_str (cb_venueId payload) = Some vid →
  venue db !! vid = Some v →
  create_booking key_id secret payload env db = (Ok q, db') →
  let P := price_per_hour_of v in
  let n := Z.of_nat (length (cb_slotIds payload)) in
  let total := py_round2 (P * float_of_int (Z.max 1 n)) in
  q_totalAmount q = total ∧
  q_bookingId q = str_of_ObjectId (env_booking_id env) ∧
  ∃ b, booking db' !! env_booking_id env = Some b ∧
       b_totalAmount b = total ∧
       b_commission b = py_round2 (total * one_tenth).
Proof.
  intros Hvid Hv. rewrite create_booking_run, Hvid, Hv.
  destruct (mapM ObjectId_of_str (cb_slotIds payload)) as [ids|]; [|done].
  cbn zeta. case_decide; [done|].
  destruct (filter (λ kv : ObjectId * AvailabilitySlot, bookable kv.2 = false) _)
    as [|? ?]; [|done].
  destruct (booking db !! env_booking_id env); [done|].
  destruct (py_int _) as [amount|]; [|done].
  destruct (order_id _) as [order_ref|]; [|done].
  case_decide; [done|]. intros [= <- <-]. cbn.
  split; [done|]. split; [done|].
  eexists. split; [apply lookup_insert_eq|]. done.
Qed.

(** C8.  With a gateway credential unset, or with the call to the
    gateway failing, a request that passes the checks of
    [create_booking] (the venue exists, the slot ids are well formed,
    distinct, stored and bookable) and whose total converts to an
    integer amount returns, and the order it returns is the local one:
    id ["order_"] followed by the booking id, amount
    [int(total * 100)]. *)
Theorem create_booking_fallback_order payload env db vid v ids amount :
  key_id = "" ∨ secret = "" ∨ env_gateway env = None →
  ObjectId_of_str (cb_venueId payload) = Some vid →
  venue db !! vid = Some v →
  mapM ObjectId_of_str (cb_slotIds payload) = Some ids →
  NoDup ids →
  (∀ i, i ∈ ids → ∃ s, availabilityslot db !! i = Some s ∧ bookable s = true) →
  booking db !! env_booking_id env = None →
  env_payment_id env ∉ (payment db).*1 →
  py_int (total_amount_for v payload * float_of_int 100) = Some amount →
  ∃ db',
    create_booking key_id secret payload env db =
    (Ok {| q_bookingId := str_of_ObjectId (env_booking_id env);
           q_totalAmount := total_amount_for v payload;
           q_order := {| order_id := Some ("order_" +:+ str_of_ObjectId (env_booking_id env));
                         order_amount := amount;
                         order_currency := "INR" |};
           q_razorpayKeyId := key_id |}, db').
Proof.
  intros Hgw Hvid Hv Hids Hnd Hall Hfresh Hpfresh Hamount.
  rewrite create_booking_run, Hvid, Hv, Hids. cbn zeta.
  assert (∀ i, i ∈ ids → is_Some (availabilityslot db !! i)) as Hstored.
  { intros i Hi. destruct (Hall i Hi) as (s & Hs & _). eauto. }
  rewrite decide_False by (rewrite found_slots_length; auto).
  rewrite no_invalid_slots by done. rewrite Hfresh, Hamount.
  assert (razorpay_order key_id secret (str_of_ObjectId (env_booking_id env)) amount
            (env_gateway env)
          = fallback_order (str_of_ObjectId (env_booking_id env)) amount) as ->.
  { unfold razorpay_order. case_bool_decide as Hcfg; [|done].
    destruct Hcfg as [Hid Hsec]. destruct Hgw as [?|[?|Hnone]]; [done..|]. by rewrite Hnone. }
  cbn. rewrite decide_False by done. eauto.
Qed.

(** ** [confirm_payment] *)

Lemma confirm_payment_run payload db :
  confirm_payment secret hmac payload db =
  if signature_rejected secret hmac payload then (Raised signature_mismatch, db)
  else
    match ObjectId_of_str (cp_bookingId payload) with
    | None => (Raised invalid_id, db)
    | Some bid =>
      match booking db !! bid with
      | None => (Raised booking_not_found, db)
      | Some b =>
        let txn := razorpay_payment_id payload in
        match mapM ObjectId_of_str (b_slotIds b) with
        | None => (Raised invalid_id, after_paid bid txn db)
        | Some ids =>
            (Ok "confirmed", after_confirm bid (cp_bookingId payload) txn ids db)
        end
      end
    end.
Proof.
  unfold confirm_payment. destruct (signature_rejected secret hmac payload); [done|].
  rewrite bind_run. unfold oid at 1.
  destruct (ObjectId_of_str (cp_bookingId payload)) as [bid|]; [|done].
  cbn -[mapM]. rewrite bind_run. cbn -[mapM].
  destruct (booking db !! bid) as [b|]; [|done].
  rewrite bind_run. cbn -[mapM]. rewrite bind_run, mapM_oid_run.
  destruct (mapM ObjectId_of_str (b_slotIds b)) as [ids|]; done.
Qed.

Lemma alter_idemp {A} (f : A → A) (i : ObjectId) (m : gmap ObjectId A) :
  (∀ x, f (f x) = f x) → alter f i (alter f i m) = alter f i m.
Proof.
  intros Hf. apply map_eq. intros j. destruct (decide (i = j)) as [->|Hne].
  - rewrite !lookup_alter_eq. destruct (m !! j); cbn; by rewrite ?Hf.
  - by rewrite !lookup_alter_ne.
Qed.

Lemma lookup_mark_booked ids (m : gmap ObjectId AvailabilitySlot) k :
  mark_booked ids m !! k =
  (λ s, if decide (k ∈ ids) then set_status SlotStatus.booked s else s) <$> m !! k.
Proof. unfold mark_booked. rewrite map_lookup_imap. by destruct (m !! k). Qed.

Lemma mark_booked_idemp ids (m : gmap ObjectId AvailabilitySlot) :
  mark_booked ids (mark_booked ids m) = mark_booked ids m.
Proof.
  apply map_eq. intros k. rewrite !lookup_mark_booked.
  destruct (m !! k) as [s|]; [|done]. cbn. by case_decide.
Qed.

Lemma update_first_idemp {A} (P : A → bool) (f : A → A) (l : list A) :
  (∀ x, P (f x) = P x) → (∀ x, f (f x) = f x) →
  update_first P f (update_first P f l) = update_first P f l.
Proof.
  intros HP Hf. induction l as [|x l IH]; [done|]. cbn.
  destruct (P x) eqn:Hx; cbn.
  - by rewrite HP, Hx, Hf.
  - by rewrite Hx, IH.
Qed.

Lemma find_update_first {A} (P : A → bool) (f : A → A) (l : list A) :
  (∀ x, P (f x) = P x) →
  List.find P (update_first P f l) = f <$> List.find P l.
Proof.
  intros HP. induction l as [|x l IH]; [done|]. cbn.
  destruct (P x) eqn:Hx; cbn.
  - by rewrite HP, Hx.
  - by rewrite Hx, IH.
Qed.

Lemma after_paid_idemp bid txn db :
  after_paid bid txn (after_paid bid txn db) = after_paid bid txn db.
Proof.
  unfold after_paid, set_booking. cbn. f_equal. by apply alter_idemp.
Qed.

Lemma after_confirm_idemp bid booking_id txn ids db :
  after_confirm bid booking_id txn ids (after_confirm bid booking_id txn ids db)
  = after_confirm bid booking_id txn ids db.
Proof.
  unfold after_confirm, after_paid, set_payment, set_availabilityslot, set_booking. cbn.
  f_equal.
  - apply mark_booked_idemp.
  - by apply alter_idemp.
  - apply update_first_idemp; by intros [k p].
Qed.

(** C3.  Confirming again with the same arguments, on the database the
    first call left, gives the result of the first call (so it returns
    when the first call returned) and leaves that database as it is. *)
Theorem confirm_payment_idempotent payload db :
  confirm_payment secret hmac payload (confirm_payment secret hmac payload db).2
  = confirm_payment secret hmac payload db.
Proof.
  rewrite (confirm_payment_run payload db).
  destruct (signature_rejected secret hmac payload) eqn:Hsig.
  { cbn. by rewrite confirm_payment_run, Hsig. }
  destruct (ObjectId_of_str (cp_bookingId payload)) as [bid|] eqn:Hbid.
  2: { cbn. by rewrite confirm_payment_run, Hsig, Hbid. }
  destruct (booking db !! bid) as [b|] eqn:Hb.
  2: { cbn. by rewrite confirm_payment_run, Hsig, Hbid, Hb. }
  cbn zeta.
  destruct (mapM ObjectId_of_str (b_slotIds b)) as [ids|] eqn:Hids.
  - cbn [snd]. rewrite confirm_payment_run, Hsig, Hbid.
    assert (booking (after_confirm bid (cp_bookingId payload)
                       (razorpay_payment_id payload) ids db) !! bid
            = Some (mark_paid (razorpay_payment_id payload) b)) as ->.
    { cbn. by rewrite lookup_alter_eq, Hb. }
    cbn zeta. cbn [b_slotIds mark_paid]. rewrite Hids.
    by rewrite after_confirm_idemp.
  - cbn [snd]. rewrite confirm_payment_run, Hsig, Hbid.
    assert (booking (after_paid bid (razorpay_payment_id payload) db) !! bid
            = Some (mark_paid (razorpay_payment_id payload) b)) as ->.
    { cbn. by rewrite lookup_alter_eq, Hb. }
    cbn zeta. cbn [b_slotIds mark_paid]. rewrite Hids.
    by rewrite after_paid_idemp.
Qed.

(** C4.  With a non-empty signature supplied and a non-empty secret
    configured, a signature other than the hex digest of
    HMAC-SHA256(secret, order id | payment id) makes [confirm_payment]
    raise "Signature mismatch" (400) before it has touched the
    database: booking, payment and slots are as they were. *)
Theorem confirm_payment_signature_mismatch payload db sig :
  razorpay_signature payload = Some sig →
  sig ≠ "" →
  secret ≠ "" →
  sig ≠ hmac secret
          (razorpay_order_id payload +:+ "|" +:+ razorpay_payment_id payload) →
  confirm_payment secret hmac payload db = (Raised signature_mismatch, db).
Proof.
  intros Hsig Hne Hsec Hdiff. rewrite confirm_payment_run.
  unfold signature_rejected. rewrite Hsig.
  rewrite bool_decide_eq_true_2 by done.
  rewrite bool_decide_eq_true_2 by congruence. done.
Qed.


(** C9.  [confirm_payment] reads the order id of the request only to
    check the signature: with no signature supplied, or with no secret
    configured, two requests that differ in the order id alone give the
    same result and the same database. *)
Theorem confirm_payment_ignores_order_id booking_id payment_id order1 order2 sig db :
  sig = None ∨ secret = "" →
  confirm_payment secret hmac
    {| cp_bookingId := booking_id; razorpay_payment_id := payment_id;
       razorpay_order_id := order1; razorpay_signature := sig |} db
  = confirm_payment secret hmac
    {| cp_bookingId := booking_id; razorpay_payment_id := payment_id;
       razorpay_order_id := order2; razorpay_signature := sig |} db.
Proof.
  intros Hskip. rewrite !confirm_payment_run. unfold signature_rejected. cbn.
  destruct Hskip as [->|Hsec]; [done|].
  destruct sig as [sg|]; [|done].
  rewrite !bool_decide_eq_false_2; [done|by intros [_ ?]].
Qed.

(** ** The invariant of paid bookings *)

Lemma slots_advance_refl m : slots_advance m m.
Proof. intros i s Hs. eauto. Qed.

Lemma mark_reserved_advance ids m : slots_advance m (mark_reserved ids m).
Proof.
  intros i s Hs. rewrite lookup_mark_reserved, Hs. cbn.
  eexists. split; [done|]. case_decide as Hm; [|done].
  destruct Hm as [_ Hav]. cbn in Hav. congruence.
Qed.

Lemma mark_booked_advance ids m : slots_advance m (mark_booked ids m).
Proof.
  intros i s Hs. rewrite lookup_mark_booked, Hs. cbn.
  eexists. split; [done|]. by case_decide.
Qed.

Lemma slot_known_advance db db' sid :
  slots_advance (availabilityslot db) (availabilityslot db') →
  slot_known db sid → slot_known db' sid.
Proof.
  intros Hadv (i & Hi & [s Hs]). destruct (Hadv i s Hs) as (s' & Hs' & _).
  exists i. eauto.
Qed.

Lemma slot_in_booked_advance db db' sid :
  slots_advance (availabilityslot db) (availabilityslot db') →
  slot_in db SlotStatus.booked sid → slot_in db' SlotStatus.booked sid.
Proof.
  intros Hadv (i & s & Hi & Hs & Hst). destruct (Hadv i s Hs) as (s' & Hs' & Hkeep).
  exists i, s'. eauto.
Qed.

Lemma store_inv_advance db db' :
  booking db' = booking db →
  slots_advance (availabilityslot db) (availabilityslot db') →
  store_inv db → store_inv db'.
Proof.
  intros Hbk Hadv [Hknown Hpaid]. split.
  - intros id b Hb sid Hsid. rewrite Hbk in Hb.
    eapply slot_known_advance; [done|]. by eapply Hknown.
  - intros id b Hb Hp. rewrite Hbk in Hb. destruct (Hpaid id b Hb Hp) as [Hc Hall].
    split; [done|]. intros sid Hsid. eapply slot_in_booked_advance; [done|]. by apply Hall.
Qed.

Lemma store_inv_after_hold ids db : store_inv db → store_inv (after_hold ids db).
Proof. apply store_inv_advance; [done|]. apply mark_reserved_advance. Qed.

Lemma store_inv_insert_booking id doc db :
  (∀ sid, sid ∈ b_slotIds doc → slot_known db sid) →
  b_paymentStatus doc = PaymentStatus.pending →
  store_inv db → store_inv (set_booking (<[id := doc]> (booking db)) db).
Proof.
  intros Hdoc Hpending [Hknown Hpaid]. split.
  - intros id' b Hb sid Hsid. cbn in Hb.
    destruct (decide (id = id')) as [->|Hne].
    + rewrite lookup_insert_eq in Hb. injection Hb as <-.
      destruct (Hdoc sid Hsid) as (i & Hi & Hs). exists i. eauto.
    + rewrite lookup_insert_ne in Hb by done.
      destruct (Hknown id' b Hb sid Hsid) as (i & Hi & Hs). exists i. eauto.
  - intros id' b Hb Hp. cbn in Hb.
    destruct (decide (id = id')) as [->|Hne].
    + rewrite lookup_insert_eq in Hb. injection Hb as <-. congruence.
    + rewrite lookup_insert_ne in Hb by done.
      destruct (Hpaid id' b Hb Hp) as [Hc Hall]. split; [done|].
      intros sid Hsid. destruct (Hall sid Hsid) as (i & s & ? & ? & ?).
      exists i, s. eauto.
Qed.

Lemma store_inv_set_payment l db : store_inv db → store_inv (set_payment l db).
Proof. apply store_inv_advance; [done|]. apply slots_advance_refl. Qed.

Lemma store_inv_after_confirm bid booking_id txn ids db b :
  booking db !! bid = Some b →
  mapM ObjectId_of_str (b_slotIds b) = Some ids →
  store_inv db → store_inv (after_confirm bid booking_id txn ids db).
Proof.
  intros Hb Hids [Hknown Hpaid].
  assert (slots_advance (availabilityslot db)
            (availabilityslot (after_confirm bid booking_id txn ids db))) as Hadv
    by apply mark_booked_advance.
  assert (∀ id' b', booking (after_confirm bid booking_id txn ids db) !! id' = Some b' →
            (id' = bid ∧ b' = mark_paid txn b) ∨ (id' ≠ bid ∧ booking db !! id' = Some b'))
    as Hcases.
  { intros id' b' Hb'. cbn in Hb'. destruct (decide (bid = id')) as [->|Hne].
    - rewrite lookup_alter_eq, Hb in Hb'. injection Hb' as <-. by left.
    - rewrite lookup_alter_ne in Hb' by done. right. split; [congruence|done]. }
  split.
  - intros id' b' Hb' sid Hsid. eapply slot_known_advance; [exact Hadv|].
    destruct (Hcases id' b' Hb') as [[-> ->]|[_ Hold]].
    + by eapply (Hknown bid b).
    + by eapply Hknown.
  - intros id' b' Hb' Hp. destruct (Hcases id' b' Hb') as [[-> ->]|[_ Hold]].
    + split; [done|]. intros sid Hsid. cbn in Hsid.
      destruct (Hknown bid b Hb sid Hsid) as (i & Hi & [s Hs]).
      destruct (mapM_parse_elem _ _ _ Hids Hsid) as (i' & Hi' & Hin).
      assert (i' = i) as -> by congruence.
      exists i, (set_status SlotStatus.booked s). split; [done|]. split; [|done].
      cbn. rewrite lookup_mark_booked, Hs. cbn. by rewrite decide_True.
    + destruct (Hpaid id' b' Hold Hp) as [Hc Hall]. split; [done|].
      intros sid Hsid. eapply slot_in_booked_advance; [exact Hadv|]. by apply Hall.
Qed.

Lemma reserve_slots_store_inv payload db :
  store_inv db → store_inv (reserve_slots payload db).2.
Proof.
  intros Hinv. rewrite reserve_slots_run.
  destruct (mapM ObjectId_of_str (rp_slotIds payload)) as [ids|]; [|done].
  cbn zeta. case_decide; by apply store_inv_after_hold.
Qed.

Lemma create_booking_store_inv payload env db :
  store_inv db → store_inv (create_booking key_id secret payload env db).2.
Proof.
  intros Hinv. rewrite create_booking_run.
  destruct (ObjectId_of_str (cb_venueId payload)) as [vid|]; [|done].
  destruct (venue db !! vid) as [v|]; [|done].
  destruct (mapM ObjectId_of_str (cb_slotIds payload)) as [ids|] eqn:Hids; [|done].
  cbn zeta. case_decide as Hlen; [done|].
  destruct (filter (λ kv : ObjectId * AvailabilitySlot, bookable kv.2 = false) _)
    as [|? ?]; [|done].
  destruct (booking db !! env_booking_id env); [by apply store_inv_after_hold|].
  assert (store_inv (after_booking ids (env_booking_id env)
            (booking_doc payload (total_amount_for v payload) (env_now_booking env)) db))
    as Hinv2.
  { apply (store_inv_insert_booking _ _ (after_hold ids db));
      [|done|by apply store_inv_after_hold].
    intros sid Hsid. cbn in Hsid.
    destruct (mapM_parse_elem _ _ _ Hids Hsid) as (i & Hi & Hin).
    destruct (found_slots_full ids (availabilityslot db)) as [_ Hall].
    { destruct (decide (length (map_to_list (filter (λ kv : ObjectId * AvailabilitySlot,
                 kv.1 ∈ ids) (availabilityslot db))) = length ids)); [done|].
      by destruct Hlen. }
    eapply (slot_known_advance db); [apply mark_reserved_advance|].
    exists i. split; [done|]. by apply Hall. }
  destruct (py_int _) as [amount|]; [|done].
  destruct (order_id _) as [order_ref|]; [|done].
  case_decide; [done|]. by apply store_inv_set_payment.
Qed.

Lemma confirm_payment_store_inv payload db :
  store_inv db → store_inv (confirm_payment secret hmac payload db).2.
Proof.
  intros Hinv. rewrite confirm_payment_run.
  destruct (signature_rejected secret hmac payload); [done|].
  destruct (ObjectId_of_str (cp_bookingId payload)) as [bid|]; [|done].
  destruct (booking db !! bid) as [b|] eqn:Hb; [|done].
  cbn zeta.
  destruct (mapM ObjectId_of_str (b_slotIds b)) as [ids|] eqn:Hids.
  - by eapply store_inv_after_confirm.
  - apply mapM_None_1, Exists_exists in Hids as (sid & Hin & Hnone).
    destruct Hinv as [Hknown _].
    destruct (Hknown bid b Hb sid Hin) as (i & Hi & _). congruence.
Qed.

Lemma step_store_inv db db' :
  step key_id secret hmac db db' →
  store_inv db → store_inv db'.
Proof.
  intros [payload ?|payload env ?|payload ?] Hinv.
  - by apply reserve_slots_store_inv.
  - by apply create_booking_store_inv.
  - by apply confirm_payment_store_inv.
Qed.

Lemma reachable_store_inv db0 db :
  store_inv db0 → reachable key_id secret hmac db0 db → store_inv db.
Proof.
  intros Hinv Hreach. induction Hreach as [|db1 db2 db3 Hstep _ IH]; [done|].
  apply IH. by eapply step_store_inv.
Qed.

(** C2.  From a database with no booking yet, whatever requests the
    three handlers serve, returning or raising, every stored booking
    with [paymentStatus = paid] has [status = confirmed], and every slot
    it refers to is stored with [status = booked]. *)
Theorem paid_bookings_confirmed_and_booked db0 db :
  booking db0 = ∅ →
  reachable key_id secret hmac db0 db →
  paid_invariant db.
Proof.
  intros Hempty Hreach.
  assert (store_inv db0) as Hinv0.
  { split; intros id b Hb; rewrite Hempty, lookup_empty in Hb; done. }
  by destruct (reachable_store_inv db0 db Hinv0 Hreach).
Qed.

End HandlerProperties.


(** ** More on [reserve_slots] *)

Lemma mark_reserved_nil (m : gmap ObjectId AvailabilitySlot) : mark_reserved [] m = m.
Proof.
  apply map_eq. intros k. rewrite lookup_mark_reserved.
  destruct (m !! k) as [s|]; [|done]. cbn. rewrite decide_False; [done|].
  intros [Hin _]. by apply elem_of_nil in Hin.
Qed.

Lemma mark_reserved_idemp ids (m : gmap ObjectId AvailabilitySlot) :
  mark_reserved ids (mark_reserved ids m) = mark_reserved ids m.
Proof.
  apply map_eq. intros k. rewrite !lookup_mark_reserved.
  destruct (m !! k) as [s|]; [|done]. cbn. f_equal.
  destruct (decide (matches_available ids (k, s))) as [Hm|Hm].
  - rewrite decide_False; [done|]. by intros [_ ?].
  - by rewrite decide_False.
Qed.

Lemma mapM_parse_elem_inv (l : list string) (ids : list ObjectId) (i : ObjectId) :
  mapM ObjectId_of_str l = Some ids → i ∈ ids →
  ∃ sid, sid ∈ l ∧ ObjectId_of_str sid = Some i.
Proof.
  intros Hl%mapM_Some_1 Hin. induction Hl as [|s j l ids Hs Hl IH].
  - by apply elem_of_nil in Hin.
  - apply elem_of_cons in Hin as [->|Hin].
    + exists s. split; [apply elem_of_cons; by left|done].
    + destruct (IH Hin) as (sid & Hsid & Hp). exists sid.
      split; [apply elem_of_cons; by right|done].
Qed.

Lemma store_eta (db : Store) :
  {| venue := venue db; availabilityslot := availabilityslot db;
     booking := booking db; payment := payment db |} = db.
Proof. by destruct db. Qed.

(** X1.  [reserve_slots] returns exactly when the request lists
    well-formed ids, no id twice, and every listed slot is stored and
    [available] before the call. *)
Theorem reserve_slots_returns_iff payload db :
  (∃ l, (reserve_slots payload db).1 = Ok l) ↔
  ∃ ids, mapM ObjectId_of_str (rp_slotIds payload) = Some ids ∧ NoDup ids ∧
         ∀ i, i ∈ ids →
           ∃ s, availabilityslot db !! i = Some s ∧ s_status s = SlotStatus.available.
Proof.
  rewrite reserve_slots_run. split.
  - intros [l Hl].
    destruct (mapM ObjectId_of_str (rp_slotIds payload)) as [ids|]; [|done].
    cbn zeta in Hl. case_decide as Hsz; [done|].
    exists ids. split; [done|].
    destruct (size_filter_ids_full (matches_available ids) (availabilityslot db) ids
                (matches_available_in ids)) as [Hnd Hall].
    { destruct (decide (size (filter (matches_available ids) (availabilityslot db))
                        = length ids)); [done|]. by destruct Hsz. }
    split; [done|]. intros i Hi. destruct (Hall i Hi) as (s & Hs & _ & Hav). eauto.
  - intros (ids & -> & Hnd & Hall). cbn zeta.
    rewrite decide_False; [by eauto|]. intros Hne. apply Hne.
    apply (size_filter_ids_all _ _ ids (matches_available_in ids) Hnd).
    intros i Hi. destruct (Hall i Hi) as (s & Hs & Hav). by exists s.
Qed.

(** X2.  Whatever its outcome, [reserve_slots] leaves the venues, the
    bookings and the payments as they were, and changes a slot only by
    moving a slot that the request names and that was [available] to
    [reserved]. *)
Theorem reserve_slots_frame payload db :
  venue (reserve_slots payload db).2 = venue db ∧
  booking (reserve_slots payload db).2 = booking db ∧
  payment (reserve_slots payload db).2 = payment db ∧
  ∀ k,
    availabilityslot (reserve_slots payload db).2 !! k = availabilityslot db !! k ∨
    ∃ sid s,
      sid ∈ rp_slotIds payload ∧ ObjectId_of_str sid = Some k ∧
      availabilityslot db !! k = Some s ∧ s_status s = SlotStatus.available ∧
      availabilityslot (reserve_slots payload db).2 !! k
      = Some (set_status SlotStatus.reserved s).
Proof.
  rewrite reserve_slots_run.
  destruct (mapM ObjectId_of_str (rp_slotIds payload)) as [ids|] eqn:Hids.
  2: { cbn. repeat split. by left. }
  assert (∀ k,
    mark_reserved ids (availabilityslot db) !! k = availabilityslot db !! k ∨
    ∃ sid s,
      sid ∈ rp_slotIds payload ∧ ObjectId_of_str sid = Some k ∧
      availabilityslot db !! k = Some s ∧ s_status s = SlotStatus.available ∧
      mark_reserved ids (availabilityslot db) !! k
      = Some (set_status SlotStatus.reserved s)) as Hslots.
  { intros k. rewrite lookup_mark_reserved.
    destruct (availabilityslot db !! k) as [s|] eqn:Hs; [|by left]. cbn.
    case_decide as Hm; [|by left]. destruct Hm as [Hin Hav]. cbn in Hin, Hav.
    right. destruct (mapM_parse_elem_inv _ _ _ Hids Hin) as (sid & Hsid & Hp).
    exists sid, s. done. }
  cbn zeta. case_decide; cbn; repeat split; apply Hslots.
Qed.

(** X3.  One id in the request that [ObjectId] refuses raises the 400
    "Invalid id" before anything is written, also when the other ids
    are good. *)
Theorem reserve_slots_malformed_id payload db sid :
  sid ∈ rp_slotIds payload →
  ObjectId_of_str sid = None →
  reserve_slots payload db = (Raised invalid_id, db).
Proof.
  intros Hin Hnone. rewrite reserve_slots_run.
  rewrite (mapM_None_2 ObjectId_of_str (rp_slotIds payload)); [done|].
  apply Exists_exists. eauto.
Qed.

(** X4.  An empty request is accepted: nothing is reserved, the
    database is unchanged and the empty list is returned. *)
Theorem reserve_slots_empty user db :
  reserve_slots {| rp_userId := user; rp_slotIds := [] |} db = (Ok [], db).
Proof.
  rewrite reserve_slots_run. cbn.
  pose proof (size_filter_ids (matches_available []) (availabilityslot db) []
                (matches_available_in [])) as Hsz.
  cbn in Hsz. rewrite size_empty in Hsz.
  rewrite decide_False by lia.
  unfold set_availabilityslot. by rewrite mark_reserved_nil, store_eta.
Qed.

(** X5.  The hold has no owner: repeating a request that returned
    (and named a slot) raises the 409 conflict and changes nothing,
    whoever sends it. *)
Theorem reserve_slots_again payload db l db' :
  rp_slotIds payload ≠ [] →
  reserve_slots payload db = (Ok l, db') →
  reserve_slots payload db' = (Raised slot_conflict, db').
Proof.
  intros Hne. rewrite !reserve_slots_run.
  destruct (mapM ObjectId_of_str (rp_slotIds payload)) as [ids|] eqn:Hids; [|done].
  cbn zeta. case_decide as Hsz; [done|]. intros [= <- <-].
  rewrite decide_True.
  - unfold set_availabilityslot. cbn. by rewrite mark_reserved_idemp.
  - apply modified_count_short. right.
    destruct ids as [|x ids'].
    { apply length_mapM in Hids. destruct (rp_slotIds payload); [done|discriminate]. }
    exists x. split; [apply elem_of_cons; by left|].
    intros s. cbn. rewrite lookup_mark_reserved.
    destruct (availabilityslot db !! x) as [s0|]; [|done]. cbn.
    intros [= <-]. case_decide as Hm; [done|].
    intros Hav. apply Hm. split; [apply elem_of_cons; by left|done].
Qed.

(** ** More on [create_booking] *)

Section MoreBookingProperties.

Variable key_id : string.
Variable secret : string.

(** The slots a request that passed the checks refers to: distinct,
    stored and bookable. *)
Lemma checked_slots (ids : list ObjectId) (m : gmap ObjectId AvailabilitySlot) :
  length (map_to_list (filter (λ kv, kv.1 ∈ ids) m)) = length ids →
  filter (λ kv : ObjectId * AvailabilitySlot, bookable kv.2 = false)
    (map_to_list (filter (λ kv, kv.1 ∈ ids) m)) = [] →
  NoDup ids ∧ ∀ i, i ∈ ids → ∃ s, m !! i = Some s ∧ bookable s = true.
Proof.
  intros Hlen Hnil. destruct (found_slots_full ids m Hlen) as [Hnd Hall].
  split; [done|]. intros i Hi. destruct (Hall i Hi) as [s Hs]. exists s. split; [done|].
  destruct (bookable s) eqn:Hb; [done|]. exfalso.
  eapply (filter_nil_not_elem_of _ _ (i, s)); [exact Hnil|done|].
  by apply found_slot_elem.
Qed.

(** What a call that returned went through and wrote. *)
Lemma create_booking_ok_inv payload env db q db' :
  create_booking key_id secret payload env db = (Ok q, db') →
  ∃ vid v ids amount order_ref,
    ObjectId_of_str (cb_venueId payload) = Some vid ∧
    venue db !! vid = Some v ∧
    mapM ObjectId_of_str (cb_slotIds payload) = Some ids ∧
    NoDup ids ∧
    (∀ i, i ∈ ids → ∃ s, availabilityslot db !! i = Some s ∧ bookable s = true) ∧
    booking db !! env_booking_id env = None ∧
    (env_payment_id env ∉ (payment db).*1) ∧
    py_int (total_amount_for v payload * float_of_int 100) = Some amount ∧
    order_id (razorpay_order key_id secret (str_of_ObjectId (env_booking_id env)) amount
                (env_gateway env)) = Some order_ref ∧
    q = {| q_bookingId := str_of_ObjectId (env_booking_id env);
           q_totalAmount := total_amount_for v payload;
           q_order := razorpay_order key_id secret (str_of_ObjectId (env_booking_id env))
                        amount (env_gateway env);
           q_razorpayKeyId := key_id |} ∧
    db' = after_payment ids (env_booking_id env)
            (booking_doc payload (total_amount_for v payload) (env_now_booking env))
            (env_payment_id env)
            (pay_doc (str_of_ObjectId (env_booking_id env)) (total_amount_for v payload)
               order_ref (env_now_payment env)) db.
Proof.
  rewrite create_booking_run.
  destruct (ObjectId_of_str (cb_venueId payload)) as [vid|] eqn:Hvid; [|done].
  destruct (venue db !! vid) as [v|] eqn:Hv; [|done].
  destruct (mapM ObjectId_of_str (cb_slotIds payload)) as [ids|] eqn:Hids; [|done].
  cbn zeta. case_decide as Hlen; [done|].
  destruct (filter (λ kv : ObjectId * AvailabilitySlot, bookable kv.2 = false) _)
    as [|? ?] eqn:Hnil; [|done].
  destruct (booking db !! env_booking_id env) eqn:Hfresh; [done|].
  destruct (py_int _) as [amount|] eqn:Hamount; [|done].
  destruct (order_id _) as [order_ref|] eqn:Href; [|done].
  case_decide as Hp; [done|]. intros [= <- <-].
  destruct (checked_slots ids (availabilityslot db)) as [Hnd Hall]; [|done|].
  { destruct (decide (length (map_to_list (filter (λ kv : ObjectId * AvailabilitySlot,
               kv.1 ∈ ids) (availabilityslot db))) = length ids)); [done|].
    by destruct Hlen. }
  exists vid, v, ids, amount, order_ref. repeat split; done.
Qed.

Lemma create_booking_returns payload env db vid v ids amount order_ref :
  ObjectId_of_str (cb_venueId payload) = Some vid →
  venue db !! vid = Some v →
  mapM ObjectId_of_str (cb_slotIds payload) = Some ids →
  NoDup ids →
  (∀ i, i ∈ ids → ∃ s, availabilityslot db !! i = Some s ∧ bookable s = true) →
  booking db !! env_booking_id env = None →
  env_payment_id env ∉ (payment db).*1 →
  py_int (total_amount_for v payload * float_of_int 100) = Some amount →
  order_id (razorpay_order key_id secret (str_of_ObjectId (env_booking_id env)) amount
              (env_gateway env)) = Some order_ref →
  create_booking key_id secret payload env db =
  (Ok {| q_bookingId := str_of_ObjectId (env_booking_id env);
         q_totalAmount := total_amount_for v payload;
         q_order := razorpay_order key_id secret (str_of_ObjectId (env_booking_id env))
                      amount (env_gateway env);
         q_razorpayKeyId := key_id |},
   after_payment ids (env_booking_id env)
     (booking_doc payload (total_amount_for v payload) (env_now_booking env))
     (env_payment_id env)
     (pay_doc (str_of_ObjectId (env_booking_id env)) (total_amount_for v payload)
        order_ref (env_now_payment env)) db).
Proof.
  intros Hvid Hv Hids Hnd Hall Hfresh Hpfresh Hamount Href.
  rewrite create_booking_run, Hvid, Hv, Hids. cbn zeta.
  assert (∀ i, i ∈ ids → is_Some (availabilityslot db !! i)) as Hstored.
  { intros i Hi. destruct (Hall i Hi) as (s & Hs & _). eauto. }
  rewrite decide_False by (rewrite found_slots_length; auto).
  rewrite no_invalid_slots by done. rewrite Hfresh, Hamount, Href.
  by rewrite decide_False.
Qed.

(** An order always has an id unless it is a gateway reply without one. *)
Lemma razorpay_order_has_id booking_id amount reply :
  (∀ o, reply = Some o → is_Some (order_id o)) →
  is_Some (order_id (razorpay_order key_id secret booking_id amount reply)).
Proof.
  intros Hreply. unfold razorpay_order. case_bool_decide; [|by eexists].
  destruct reply as [o|]; [by apply Hreply|by eexists].
Qed.

(** After the hold every bookable slot of the request is reserved. *)
Lemma held_slot ids (m : gmap ObjectId AvailabilitySlot) i s :
  i ∈ ids → m !! i = Some s → bookable s = true →
  ∃ s', mark_reserved ids m !! i = Some s' ∧ s_status s' = SlotStatus.reserved.
Proof.
  intros Hi Hs Hb. rewrite lookup_mark_reserved, Hs. cbn.
  case_decide as Hm; [by eexists|]. eexists. split; [done|].
  unfold bookable in Hb. destruct (s_status s) eqn:Hst; try done.
  destruct Hm. by split.
Qed.

(** X6.  When [create_booking] raises one of its HTTP errors (400, 404
    or 409) it has written nothing. *)
Theorem create_booking_http_error_no_write payload env db code detail db' :
  create_booking key_id secret payload env db = (Raised (HTTPException code detail), db') →
  db' = db.
Proof.
  rewrite create_booking_run.
  destruct (ObjectId_of_str (cb_venueId payload)) as [vid|]; [|by intros [= _ _ <-]].
  destruct (venue db !! vid) as [v|]; [|by intros [= _ _ <-]].
  destruct (mapM ObjectId_of_str (cb_slotIds payload)) as [ids|]; [|by intros [= _ _ <-]].
  cbn zeta. case_decide; [by intros [= _ _ <-]|].
  destruct (filter (λ kv : ObjectId * AvailabilitySlot, bookable kv.2 = false) _)
    as [|? ?]; [|by intros [= _ _ <-]].
  destruct (booking db !! env_booking_id env); [done|].
  destruct (py_int _); [|done]. destruct (order_id _); [|done].
  case_decide; done.
Qed.

(** X7.  With the venue found, a list of well-formed slot ids that
    repeats an id or names a slot that is not stored raises the 400
    "Invalid slots" and writes nothing. *)
Theorem create_booking_invalid_slots payload env db vid ids :
  ObjectId_of_str (cb_venueId payload) = Some vid →
  is_Some (venue db !! vid) →
  mapM ObjectId_of_str (cb_slotIds payload) = Some ids →
  (¬ NoDup ids ∨ ∃ i, i ∈ ids ∧ availabilityslot db !! i = None) →
  create_booking key_id secret payload env db = (Raised invalid_slots, db).
Proof.
  intros Hvid [v Hv] Hids Hbad. rewrite create_booking_run, Hvid, Hv, Hids. cbn zeta.
  rewrite decide_True; [done|]. intros Hlen.
  destruct (found_slots_full ids (availabilityslot db) Hlen) as [Hnd Hall].
  destruct Hbad as [Hdup|(i & Hi & Hnone)]; [done|].
  destruct (Hall i Hi) as [s Hs]. congruence.
Qed.

(** X8.  What a call that returned has written: the venues are
    untouched; exactly one booking was added under a new id, with the
    returned total; exactly one payment was appended, for the returned
    booking id, total and order id; every slot of the request is
    [reserved]; no other slot changed. *)
Theorem create_booking_ok_state payload env db q db' :
  create_booking key_id secret payload env db = (Ok q, db') →
  venue db' = venue db ∧
  booking db !! env_booking_id env = None ∧
  booking db' = <[env_booking_id env :=
                   booking_doc payload (q_totalAmount q) (env_now_booking env)]> (booking db) ∧
  (∃ order_ref,
     order_id (q_order q) = Some order_ref ∧
     payment db' = payment db ++
       [(env_payment_id env,
         pay_doc (q_bookingId q) (q_totalAmount q) order_ref (env_now_payment env))]) ∧
  (∀ sid, sid ∈ cb_slotIds payload → slot_in db' SlotStatus.reserved sid) ∧
  (∀ k, (∀ sid, sid ∈ cb_slotIds payload → ObjectId_of_str sid ≠ Some k) →
        availabilityslot db' !! k = availabilityslot db !! k).
Proof.
  intros (vid & v & ids & amount & order_ref & Hvid & Hv & Hids & Hnd & Hall & Hfresh &
          Hpfresh & Hamount & Href & -> & ->)%create_booking_ok_inv.
  cbn. split; [done|]. split; [done|]. split; [done|]. split; [by eauto|]. split.
  - intros sid Hsid. destruct (mapM_parse_elem _ _ _ Hids Hsid) as (i & Hi & Hin).
    destruct (Hall i Hin) as (s & Hs & Hb).
    destruct (held_slot ids _ i s Hin Hs Hb) as (s' & Hs' & Hst).
    exists i, s'. done.
  - intros k Hk. rewrite lookup_mark_reserved.
    destruct (availabilityslot db !! k) as [s|]; [|done]. cbn.
    rewrite decide_False; [done|]. intros [Hin _]. cbn in Hin.
    destruct (mapM_parse_elem_inv _ _ _ Hids Hin) as (sid & Hsid & Hp).
    by eapply Hk.
Qed.

(** X9.  A request without slots is accepted and billed one hour:
    [hours = max(1, len(slotIds))].  No slot changes and the stored
    booking has an empty slot list. *)
Theorem create_booking_no_slots payload env db vid v amount :
  cb_slotIds payload = [] →
  ObjectId_of_str (cb_venueId payload) = Some vid →
  venue db !! vid = Some v →
  booking db !! env_booking_id env = None →
  env_payment_id env ∉ (payment db).*1 →
  py_int (py_round2 (price_per_hour_of v * float_of_int 1) * float_of_int 100)
  = Some amount →
  (∀ o, env_gateway env = Some o → is_Some (order_id o)) →
  ∃ q db',
    create_booking key_id secret payload env db = (Ok q, db') ∧
    q_totalAmount q = py_round2 (price_per_hour_of v * float_of_int 1) ∧
    availabilityslot db' = availabilityslot db ∧
    ∃ b, booking db' !! env_booking_id env = Some b ∧ b_slotIds b = [] ∧
         b_totalAmount b = q_totalAmount q.
Proof.
  intros Hnil Hvid Hv Hfresh Hpfresh Hamount Hgw.
  assert (total_amount_for v payload = py_round2 (price_per_hour_of v * float_of_int 1))
    as Htotal by (unfold total_amount_for; by rewrite Hnil).
  destruct (razorpay_order_has_id (str_of_ObjectId (env_booking_id env)) amount
              (env_gateway env) Hgw) as [order_ref Href].
  eexists _, _. split.
  - apply (create_booking_returns payload env db vid v [] amount order_ref); try done.
    + by rewrite Hnil.
    + constructor.
    + intros i Hi. by apply elem_of_nil in Hi.
    + by rewrite Htotal.
  - cbn. split; [done|]. split; [apply mark_reserved_nil|].
    eexists. split; [apply lookup_insert_eq|]. cbn. by rewrite Hnil, Htotal.
Qed.

(** X10.  Nothing ties a slot to one pending booking: after a call
    that returned, the same request is accepted again (with new document
    ids), for the same total, and both bookings are stored with the same
    slot list. *)
Theorem create_booking_same_slots_again payload env1 env2 db q1 db1 :
  create_booking key_id secret payload env1 db = (Ok q1, db1) →
  booking db1 !! env_booking_id env2 = None →
  env_payment_id env2 ∉ (payment db1).*1 →
  (∀ o, env_gateway env2 = Some o → is_Some (order_id o)) →
  ∃ q2 db2,
    create_booking key_id secret payload env2 db1 = (Ok q2, db2) ∧
    q_totalAmount q2 = q_totalAmount q1 ∧
    ∃ b1 b2,
      booking db2 !! env_booking_id env1 = Some b1 ∧
      booking db2 !! env_booking_id env2 = Some b2 ∧
      env_booking_id env1 ≠ env_booking_id env2 ∧
      b_slotIds b1 = cb_slotIds payload ∧ b_slotIds b2 = cb_slotIds payload.
Proof.
  intros (vid & v & ids & amount & order_ref & Hvid & Hv & Hids & Hnd & Hall & Hfresh &
          Hpfresh & Hamount & Href & -> & ->)%create_booking_ok_inv Hfresh2 Hpfresh2 Hgw.
  destruct (razorpay_order_has_id (str_of_ObjectId (env_booking_id env2)) amount
              (env_gateway env2) Hgw) as [order_ref2 Href2].
  assert (env_booking_id env1 ≠ env_booking_id env2) as Hne.
  { intros Heq. cbn in Hfresh2. by rewrite <-Heq, lookup_insert_eq in Hfresh2. }
  eexists _, _. split.
  - apply (create_booking_returns payload env2 _ vid v ids amount order_ref2); try done.
    intros i Hi. destruct (Hall i Hi) as (s & Hs & Hb).
    destruct (held_slot ids _ i s Hi Hs Hb) as (s' & Hs' & Hst).
    exists s'. split; [done|]. unfold bookable. by rewrite Hst.
  - cbn. split; [done|]. eexists _, _.
    split; [rewrite lookup_insert_ne by done; apply lookup_insert_eq|].
    split; [apply lookup_insert_eq|]. done.
Qed.

(** X11.  When [create_booking] stops on an error that is not one of
    its HTTP errors (a failing insert, [int()] on a non-finite total, a
    gateway reply without ["id"]), the slots of the request stay
    [reserved]: the hold was written before and nothing undoes it.  No
    payment was added. *)
Theorem create_booking_crash_keeps_hold payload env db name db' :
  create_booking key_id secret payload env db = (Raised (Unhandled name), db') →
  venue db' = venue db ∧ payment db' = payment db ∧
  ∃ ids,
    mapM ObjectId_of_str (cb_slotIds payload) = Some ids ∧
    availabilityslot db' = mark_reserved ids (availabilityslot db) ∧
    ∀ sid, sid ∈ cb_slotIds payload → slot_in db' SlotStatus.reserved sid.
Proof.
  rewrite create_booking_run.
  destruct (ObjectId_of_str (cb_venueId payload)) as [vid|]; [|done].
  destruct (venue db !! vid) as [v|]; [|done].
  destruct (mapM ObjectId_of_str (cb_slotIds payload)) as [ids|] eqn:Hids; [|done].
  cbn zeta. case_decide as Hlen; [done|].
  destruct (filter (λ kv : ObjectId * AvailabilitySlot, bookable kv.2 = false) _)
    as [|? ?] eqn:Hnil; [|done].
  destruct (checked_slots ids (availabilityslot db)) as [Hnd Hall]; [|done|].
  { destruct (decide (length (map_to_list (filter (λ kv : ObjectId * AvailabilitySlot,
               kv.1 ∈ ids) (availabilityslot db))) = length ids)); [done|].
    by destruct Hlen. }
  assert (∀ db'', availabilityslot db'' = mark_reserved ids (availabilityslot db) →
            ∀ sid, sid ∈ cb_slotIds payload → slot_in db'' SlotStatus.reserved sid) as Hheld.
  { intros db'' Hdb sid Hsid. destruct (mapM_parse_elem _ _ _ Hids Hsid) as (i & Hi & Hin).
    destruct (Hall i Hin) as (s & Hs & Hb).
    destruct (held_slot ids _ i s Hin Hs Hb) as (s' & Hs' & Hst).
    exists i, s'. by rewrite Hdb. }
  destruct (booking db !! env_booking_id env).
  { intros [= _ <-]. cbn. repeat split. exists ids. eauto. }
  destruct (py_int _).
  2: { intros [= _ <-]. cbn. repeat split. exists ids. eauto. }
  destruct (order_id _).
  2: { intros [= _ <-]. cbn. repeat split. exists ids. eauto. }
  case_decide; [|done]. intros [= _ <-]. cbn. repeat split. exists ids. eauto.
Qed.

(** X12.  With both gateway credentials set and a reply from the
    gateway, the returned order is that reply as it came, and the payment
    is stored under the gateway's order id. *)
Theorem create_booking_remote_order payload env db q db' remote :
  key_id ≠ "" → secret ≠ "" →
  env_gateway env = Some remote →
  create_booking key_id secret payload env db = (Ok q, db') →
  q_order q = remote ∧
  ∃ p, last (payment db') = Some (env_payment_id env, p) ∧
       order_id remote = Some (p_orderId p) ∧
       p_status p = PaymentState.created ∧ p_amount p = q_totalAmount q.
Proof.
  intros Hid Hsec Hgw
    (vid & v & ids & amount & order_ref & Hvid & Hv & Hids & Hnd & Hall & Hfresh &
     Hpfresh & Hamount & Href & -> & ->)%create_booking_ok_inv.
  unfold razorpay_order in *. rewrite bool_decide_eq_true_2 in * by done.
  rewrite Hgw in *. cbn. split; [done|]. eexists. split; [apply last_snoc|]. done.
Qed.

End MoreBookingProperties.

(** ** More on [confirm_payment] *)

Lemma update_first_keys {A B} (P : A * B → bool) (f : B → B) (l : list (A * B)) :
  (update_first P (prod_map id f) l).*1 = l.*1.
Proof.
  induction l as [|[k x] l IH]; [done|]. cbn. destruct (P (k, x)); cbn; [done|].
  by rewrite IH.
Qed.

Lemma update_first_other {A} (P : A → bool) (f : A → A) (l : list A) (x : A) :
  x ∈ l → P x = false → x ∈ update_first P f l.
Proof.
  intros Hin Hx. induction l as [|y l IH]; [done|]. cbn.
  apply elem_of_cons in Hin as [->|Hin].
  - rewrite Hx. apply elem_of_cons. by left.
  - destruct (P y); apply elem_of_cons; right; [done|by apply IH].
Qed.

Lemma find_app_last {A} (P : A → bool) (l : list A) (x : A) :
  P x = true → ∃ y, List.find P (l ++ [x]) = Some y ∧ P y = true.
Proof.
  intros Hx. induction l as [|z l IH]; cbn.
  - rewrite Hx. eauto.
  - destruct (P z) eqn:Hz; eauto.
Qed.

Section MoreConfirmProperties.

Variable key_id : string.
Variable secret : string.
Variable hmac : string → string → string.

(** X13.  A confirmation that passes the signature check and names no
    stored booking raises 400 "Invalid id" (an id that [ObjectId]
    refuses) or 404 "Booking not found", and writes nothing. *)
Theorem confirm_payment_unknown_booking payload db :
  signature_rejected secret hmac payload = false →
  (∀ bid, ObjectId_of_str (cp_bookingId payload) = Some bid → booking db !! bid = None) →
  confirm_payment secret hmac payload db =
  (Raised (match ObjectId_of_str (cp_bookingId payload) with
           | Some _ => booking_not_found
           | None => invalid_id
           end), db).
Proof.
  intros Hsig Hnone. rewrite confirm_payment_run, Hsig.
  destruct (ObjectId_of_str (cp_bookingId payload)) as [bid|]; [|done].
  by rewrite (Hnone bid eq_refl).
Qed.

(** X14.  Whatever its outcome, [confirm_payment] leaves the venues as
    they were, adds and removes no booking and no payment, changes no
    booking but the one the request names, leaves the payments of other
    booking ids as they were, and changes a slot only by setting it to
    [booked]. *)
Theorem confirm_payment_frame payload db :
  let db' := (confirm_payment secret hmac payload db).2 in
  venue db' = venue db ∧
  dom (booking db') = dom (booking db) ∧
  (∀ k, ObjectId_of_str (cp_bookingId payload) ≠ Some k →
        booking db' !! k = booking db !! k) ∧
  (payment db').*1 = (payment db).*1 ∧
  (∀ kv, kv ∈ payment db → p_bookingId kv.2 ≠ cp_bookingId payload → kv ∈ payment db') ∧
  (∀ i, availabilityslot db' !! i = availabilityslot db !! i ∨
        ∃ s, availabilityslot db !! i = Some s ∧
             availabilityslot db' !! i = Some (set_status SlotStatus.booked s)).
Proof.
  cbn zeta. rewrite confirm_payment_run.
  assert (∀ i, availabilityslot db !! i = availabilityslot db !! i ∨
               ∃ s, availabilityslot db !! i = Some s ∧
                    availabilityslot db !! i = Some (set_status SlotStatus.booked s))
    as Hsame by (by left).
  destruct (signature_rejected secret hmac payload); [by repeat split|].
  destruct (ObjectId_of_str (cp_bookingId payload)) as [bid|]; [|by repeat split].
  destruct (booking db !! bid) as [b|] eqn:Hb; [|by repeat split].
  cbn zeta.
  assert (dom (alter (mark_paid (razorpay_payment_id payload)) bid (booking db))
          = dom (booking db)) as Hdom.
  { apply set_eq. intros k. rewrite !elem_of_dom. apply lookup_alter_is_Some. }
  assert (∀ k, Some bid ≠ Some k →
            alter (mark_paid (razorpay_payment_id payload)) bid (booking db) !! k
            = booking db !! k) as Hother.
  { intros k Hk. apply lookup_alter_ne. congruence. }
  destruct (mapM ObjectId_of_str (b_slotIds b)) as [ids|]; cbn; [|by repeat split].
  split; [done|]. split; [done|]. split; [done|].
  split; [apply update_first_keys|]. split.
  - intros kv Hin Hne. apply update_first_other; [done|]. by apply bool_decide_eq_false_2.
  - intros i. rewrite lookup_mark_booked.
    destruct (availabilityslot db !! i) as [s|]; [|by left]. cbn.
    case_decide; [right; by eauto|by left].
Qed.

(** X15.  A request signed with the digest of
    [order_id + "|" + payment_id] under the configured secret is treated
    as the same request without a signature. *)
Theorem confirm_payment_valid_signature booking_id payment_id order db :
  confirm_payment secret hmac
    {| cp_bookingId := booking_id; razorpay_payment_id := payment_id;
       razorpay_order_id := order;
       razorpay_signature := Some (hmac secret (order +:+ "|" +:+ payment_id)) |} db
  = confirm_payment secret hmac
    {| cp_bookingId := booking_id; razorpay_payment_id := payment_id;
       razorpay_order_id := order; razorpay_signature := None |} db.
Proof.
  rewrite !confirm_payment_run. unfold signature_rejected. cbn.
  case_bool_decide; [|done]. by rewrite bool_decide_eq_false_2 by (by intros ?).
Qed.

(** X16.  The two handlers composed: the booking id that
    [create_booking] returned is accepted by [confirm_payment] (without a
    signature, whatever payment and order ids are sent); afterwards the
    booking is paid and confirmed with the payment id as its code and the
    total unchanged, every slot of the request is [booked], and the
    payment of that booking is paid. *)
Theorem create_then_confirm payload env db q db1 txn order :
  (env_booking_id env < 2 ^ 96)%N →
  create_booking key_id secret payload env db = (Ok q, db1) →
  ∃ db2,
    confirm_payment secret hmac
      {| cp_bookingId := q_bookingId q; razorpay_payment_id := txn;
         razorpay_order_id := order; razorpay_signature := None |} db1
    = (Ok "confirmed", db2) ∧
    (∃ b, booking db2 !! env_booking_id env = Some b ∧
          b_paymentStatus b = PaymentStatus.paid ∧
          b_status b = BookingStatus.confirmed ∧
          b_bookingCode b = Some txn ∧
          b_totalAmount b = q_totalAmount q) ∧
    (∀ sid, sid ∈ cb_slotIds payload → slot_in db2 SlotStatus.booked sid) ∧
    (∃ p, payment_for (q_bookingId q) db2 = Some p ∧
          p_status p = PaymentState.paid ∧ p_transactionId p = Some txn).
Proof.
  intros Hwf
    (vid & v & ids & amount & order_ref & Hvid & Hv & Hids & Hnd & Hall & Hfresh &
     Hpfresh & Hamount & Href & -> & ->)%(create_booking_ok_inv key_id secret).
  rewrite confirm_payment_run. cbn [signature_rejected razorpay_signature].
  cbn [cp_bookingId q_bookingId]. rewrite (ObjectId_of_str_of_ObjectId _ Hwf).
  assert (booking (after_payment ids (env_booking_id env)
            (booking_doc payload (total_amount_for v payload) (env_now_booking env))
            (env_payment_id env)
            (pay_doc (str_of_ObjectId (env_booking_id env)) (total_amount_for v payload)
               order_ref (env_now_payment env)) db) !! env_booking_id env
          = Some (booking_doc payload (total_amount_for v payload) (env_now_booking env)))
    as -> by apply lookup_insert_eq.
  cbn zeta. cbn [b_slotIds booking_doc]. rewrite Hids.
  eexists. split; [done|]. split; [|split].
  - eexists. split; [cbn; rewrite lookup_alter_eq, lookup_insert_eq; done|]. done.
  - intros sid Hsid. destruct (mapM_parse_elem _ _ _ Hids Hsid) as (i & Hi & Hin).
    destruct (Hall i Hin) as (s & Hs & Hb).
    destruct (held_slot ids _ i s Hin Hs Hb) as (s' & Hs' & Hst).
    exists i, (set_status SlotStatus.booked s'). split; [done|]. split; [|done].
    cbn. rewrite lookup_mark_booked, Hs'. cbn. by rewrite decide_True.
  - unfold payment_for. cbn -[str_of_ObjectId].
    rewrite find_update_first by (by intros [k p]).
    destruct (find_app_last
                (λ kv : ObjectId * Payment,
                   bool_decide (p_bookingId kv.2 = str_of_ObjectId (env_booking_id env)))
                (payment db)
                (env_payment_id env,
                 pay_doc (str_of_ObjectId (env_booking_id env)) (total_amount_for v payload)
                   order_ref (env_now_payment env)))
      as ([k p] & -> & _); [by apply bool_decide_eq_true_2|].
    cbn. eauto.
Qed.

End MoreConfirmProperties.

(** ** Sequences of calls

    Every handler is a sequence of single writes, so what each single
    write keeps, every sequence of calls keeps. *)

Lemma update_first_elem {A} (P : A → bool) (f : A → A) (l : list A) (x : A) :
  x ∈ l → x ∈ update_first P f l ∨ f x ∈ update_first P f l.
Proof.
  intros Hin. induction l as [|y l IH]; [by apply elem_of_nil in Hin|]. cbn.
  apply elem_of_cons in Hin as [->|Hin].
  - destruct (P y); [right|left]; apply elem_of_cons; by left.
  - destruct (P y).
    + left. apply elem_of_cons. by right.
    + destruct (IH Hin); [left|right]; apply elem_of_cons; by right.
Qed.

Lemma update_first_elem_inv {A} (P : A → bool) (f : A → A) (l : list A) (y : A) :
  y ∈ update_first P f l → ∃ x, x ∈ l ∧ (y = x ∨ y = f x).
Proof.
  induction l as [|x l IH]; [by intros ?%elem_of_nil|]. cbn. destruct (P x).
  - intros [->|Hin]%elem_of_cons.
    + exists x. split; [apply elem_of_cons; by left|by right].
    + exists y. split; [apply elem_of_cons; by right|by left].
  - intros [->|Hin]%elem_of_cons.
    + exists x. split; [apply elem_of_cons; by left|by left].
    + destruct (IH Hin) as (z & Hz & Hy). exists z.
      split; [apply elem_of_cons; by right|done].
Qed.

Lemma status_forward_refl st : status_forward st st.
Proof. by left. Qed.

Lemma status_forward_trans st1 st2 st3 :
  status_forward st1 st2 → status_forward st2 st3 → status_forward st1 st3.
Proof.
  unfold status_forward. intros H1 H2.
  destruct H2 as [ -> | [ [ -> -> ] | -> ] ]; [done| |by right; right].
  destruct H1 as [ <- | [ [_ ?] | ? ] ]; [right; by left|done..].
Qed.

Lemma slots_forward_refl db : slots_forward db db.
Proof.
  intros i. destruct (availabilityslot db !! i) as [s|]; [|done].
  split; [by destruct s|apply status_forward_refl].
Qed.

Lemma slots_forward_trans db1 db2 db3 :
  slots_forward db1 db2 → slots_forward db2 db3 → slots_forward db1 db3.
Proof.
  intros H12 H23 i. specialize (H12 i). specialize (H23 i).
  destruct (availabilityslot db1 !! i) as [s1|], (availabilityslot db2 !! i) as [s2|],
    (availabilityslot db3 !! i) as [s3|]; try done.
  destruct H12 as [E12 F12], H23 as [E23 F23]. split.
  - rewrite E23, E12. done.
  - by eapply status_forward_trans.
Qed.

Lemma write_slots_forward db db' : write db db' → slots_forward db db'.
Proof.
  intros [ids db0|ids db0|? ? db0 _ _ _ _|? ? db0|? ? db0 _ _|? ? db0];
    try exact (slots_forward_refl db0).
  - intros i. cbn. rewrite lookup_mark_reserved.
    destruct (availabilityslot db0 !! i) as [s|]; [|done]. cbn.
    case_decide as Hm; [|split; [by destruct s|by left]].
    split; [done|]. right; left. by destruct Hm.
  - intros i. cbn. rewrite lookup_mark_booked.
    destruct (availabilityslot db0 !! i) as [s|]; [|done]. cbn.
    case_decide; [|split; [by destruct s|by left]].
    split; [done|]. by right; right.
Qed.

Lemma bookings_kept_refl db : bookings_kept db db.
Proof. split; [done|]. intros id b Hb. exists b. by repeat split. Qed.

Lemma bookings_kept_trans db1 db2 db3 :
  bookings_kept db1 db2 → bookings_kept db2 db3 → bookings_kept db1 db3.
Proof.
  intros [V12 B12] [V23 B23]. split; [congruence|]. intros id b Hb.
  destruct (B12 id b Hb) as (b2 & Hb2 & ? & ? & ? & ? & ? & ? & ?).
  destruct (B23 id b2 Hb2) as (b3 & Hb3 & ? & ? & ? & ? & ? & ? & ?).
  exists b3. repeat split; try congruence. auto.
Qed.

Lemma write_bookings_kept db db' : write db db' → bookings_kept db db'.
Proof.
  intros [ids db0|ids db0|id doc db0 Hfresh _ _ _|id txn db0|? ? db0 _ _|? ? db0];
    try exact (bookings_kept_refl db0).
  - split; [done|]. intros id' b Hb. exists b. cbn.
    rewrite lookup_insert_ne by congruence. by repeat split.
  - split; [done|]. intros id' b Hb. cbn. destruct (decide (id = id')) as [->|Hne].
    + exists (mark_paid txn b). rewrite lookup_alter_eq, Hb. by repeat split.
    + exists b. rewrite lookup_alter_ne by done. by repeat split.
Qed.

Lemma payments_kept_refl db : payments_kept db db.
Proof. intros id p Hp. exists p. by repeat split. Qed.

Lemma payments_kept_trans db1 db2 db3 :
  payments_kept db1 db2 → payments_kept db2 db3 → payments_kept db1 db3.
Proof.
  intros P12 P23 id p Hp.
  destruct (P12 id p Hp) as (p2 & Hp2 & ? & ? & ? & ? & ?).
  destruct (P23 id p2 Hp2) as (p3 & Hp3 & ? & ? & ? & ? & ?).
  exists p3. repeat split; try congruence. auto.
Qed.

Lemma write_payments_kept db db' : write db db' → payments_kept db db'.
Proof.
  intros [ids db0|ids db0|? ? db0 _ _ _ _|? ? db0|id doc db0 _ _|bstr txn db0];
    try exact (payments_kept_refl db0).
  - intros id' p Hp. exists p. cbn. split; [|by repeat split].
    apply elem_of_app. by left.
  - intros id' p Hp. cbn.
    destruct (update_first_elem (λ kv : ObjectId * Payment,
                bool_decide (p_bookingId kv.2 = bstr)) (prod_map id (settle txn))
                (payment db0) (id', p) Hp) as [Hin|Hin].
    + exists p. by repeat split.
    + exists (settle txn p). by repeat split.
Qed.

Lemma write_bookings_state_ok db db' :
  write db db' → bookings_state_ok db → bookings_state_ok db'.
Proof.
  intros [ids db0|ids db0|id doc db0 _ H1 H2 H3|id txn db0|? ? db0 _ _|? ? db0] Hok;
    try exact Hok.
  - intros id' b. cbn. destruct (decide (id = id')) as [->|Hne].
    + rewrite lookup_insert_eq. intros [= <-]. by left.
    + rewrite lookup_insert_ne by done. apply Hok.
  - intros id' b. cbn. destruct (decide (id = id')) as [->|Hne].
    + rewrite lookup_alter_eq. destruct (booking db0 !! id') as [b0|]; [|done].
      intros [= <-]. right. cbn. by eauto.
    + rewrite lookup_alter_ne by done. apply Hok.
Qed.

Lemma writes_bookings_state_ok db0 db :
  bookings_state_ok db0 → rtc write db0 db → bookings_state_ok db.
Proof.
  intros Hok0 Hw. induction Hw as [|db1 db2 db3 Hw _ IH]; [done|].
  apply IH. by eapply write_bookings_state_ok.
Qed.

Lemma no_booking_state_ok db0 : booking db0 = ∅ → bookings_state_ok db0.
Proof. intros Hempty id b Hb. by rewrite Hempty, lookup_empty in Hb. Qed.

Lemma write_payments_refer db db' :
  write db db' → payments_refer db → payments_refer db'.
Proof.
  intros [ids db0|ids db0|id doc db0 Hfresh _ _ _|id txn db0|id doc db0 Hfresh Hdoc
         |bstr txn db0] [Hnd Hrefer]; try exact (conj Hnd Hrefer).
  - split; [done|]. intros id' p Hp. destruct (Hrefer id' p Hp) as (bid & b & Hb & ? & ?).
    exists bid, b. cbn. rewrite lookup_insert_ne by congruence. done.
  - split; [done|]. intros id' p Hp. destruct (Hrefer id' p Hp) as (bid & b & Hb & ? & ?).
    cbn. destruct (decide (id = bid)) as [->|Hne].
    + exists bid, (mark_paid txn b). rewrite lookup_alter_eq, Hb. done.
    + exists bid, b. rewrite lookup_alter_ne by done. done.
  - split.
    + cbn. rewrite fmap_app. apply NoDup_app. split; [done|]. split.
      * intros k Hk Hin. apply list_elem_of_singleton in Hin as ->. done.
      * apply NoDup_singleton.
    + intros id' p. cbn. intros [Hp|Hp]%elem_of_app; [exact (Hrefer _ _ Hp)|].
      apply list_elem_of_singleton in Hp as [= -> ->]. done.
  - split; [cbn; by rewrite update_first_keys|].
    intros id' p' Hp'. cbn in Hp'.
    apply update_first_elem_inv in Hp' as ([k p] & Hin & [[= -> ->]|[= -> ->]]).
    + exact (Hrefer _ _ Hin).
    + destruct (Hrefer k p Hin) as (bid & b & ? & ? & ?). exists bid, b. done.
Qed.

Section Sequences.

Variable key_id : string.
Variable secret : string.
Variable hmac : string → string → string.

Lemma reserve_slots_writes payload db : rtc write db (reserve_slots payload db).2.
Proof.
  rewrite reserve_slots_run.
  destruct (mapM ObjectId_of_str (rp_slotIds payload)) as [ids|]; [|done].
  cbn zeta. case_decide; apply rtc_once, write_hold.
Qed.

Lemma create_booking_writes payload env db :
  rtc write db (create_booking key_id secret payload env db).2.
Proof.
  rewrite create_booking_run.
  destruct (ObjectId_of_str (cb_venueId payload)) as [vid|]; [|done].
  destruct (venue db !! vid) as [v|]; [|done].
  destruct (mapM ObjectId_of_str (cb_slotIds payload)) as [ids|]; [|done].
  cbn zeta. case_decide; [done|].
  destruct (filter (λ kv : ObjectId * AvailabilitySlot, bookable kv.2 = false) _)
    as [|? ?]; [|done].
  destruct (booking db !! env_booking_id env) eqn:Hfresh; [apply rtc_once, write_hold|].
  assert (rtc write db (after_booking ids (env_booking_id env)
            (booking_doc payload (total_amount_for v payload) (env_now_booking env)) db))
    as Hbooking.
  { eapply rtc_l; [apply (write_hold ids)|]. apply rtc_once.
    by apply (write_booking _ _ (after_hold ids db)). }
  destruct (py_int _); [|done]. destruct (order_id _) as [order_ref|]; [|done].
  case_decide as Hp; [done|]. cbn [snd].
  eapply rtc_r; [exact Hbooking|].
  apply (write_payment _ _ (after_booking _ _ _ db)); [done|].
  eexists _, _. split; [apply lookup_insert_eq|]. done.
Qed.

Lemma confirm_payment_writes payload db :
  rtc write db (confirm_payment secret hmac payload db).2.
Proof.
  rewrite confirm_payment_run.
  destruct (signature_rejected secret hmac payload); [done|].
  destruct (ObjectId_of_str (cp_bookingId payload)) as [bid|]; [|done].
  destruct (booking db !! bid) as [b|]; [|done]. cbn zeta.
  destruct (mapM ObjectId_of_str (b_slotIds b)) as [ids|]; cbn [snd].
  - eapply rtc_l; [apply (write_paid bid (razorpay_payment_id payload))|].
    eapply rtc_l; [apply (write_book ids)|].
    apply rtc_once.
    apply (write_settle (cp_bookingId payload) (razorpay_payment_id payload)
             (set_availabilityslot (mark_booked ids (availabilityslot db))
                (after_paid bid (razorpay_payment_id payload) db))).
  - apply rtc_once, write_paid.
Qed.

Lemma reachable_writes db db' :
  reachable key_id secret hmac db db' → rtc write db db'.
Proof.
  intros Hreach. induction Hreach as [|db1 db2 db3 Hstep _ IH]; [done|].
  etrans; [|exact IH]. destruct Hstep.
  - apply reserve_slots_writes.
  - apply create_booking_writes.
  - apply confirm_payment_writes.
Qed.

(** X17.  Over any sequence of calls of the three handlers no slot is
    added or removed, a slot changes in its status only, and the status
    moves forward only: it stays, goes from [available] to [reserved], or
    becomes [booked].  Nothing releases a hold or a booked slot. *)
Theorem reachable_slots_forward db db' :
  reachable key_id secret hmac db db' → slots_forward db db'.
Proof.
  intros Hw%reachable_writes. induction Hw as [|db1 db2 db3 Hw _ IH].
  - apply slots_forward_refl.
  - eapply slots_forward_trans; [by apply write_slots_forward|done].
Qed.

(** X18.  Over any sequence of calls the venues are untouched and no
    booking is removed or rewritten: it keeps its user, venue, slots,
    amounts and creation time, and a paid booking stays paid. *)
Theorem reachable_bookings_kept db db' :
  reachable key_id secret hmac db db' → bookings_kept db db'.
Proof.
  intros Hw%reachable_writes. induction Hw as [|db1 db2 db3 Hw _ IH].
  - apply bookings_kept_refl.
  - eapply bookings_kept_trans; [by apply write_bookings_kept|done].
Qed.

(** X19.  Over any sequence of calls no payment is removed: it is
    kept under its id for the same booking, amount, gateway and order,
    and a paid payment stays paid. *)
Theorem reachable_payments_kept db db' :
  reachable key_id secret hmac db db' → payments_kept db db'.
Proof.
  intros Hw%reachable_writes. induction Hw as [|db1 db2 db3 Hw _ IH].
  - apply payments_kept_refl.
  - eapply payments_kept_trans; [by apply write_payments_kept|done].
Qed.

(** X20.  Starting without bookings, every stored booking is either
    as created (payment pending, status pending, no code) or as confirmed
    (paid, confirmed, with a code): the handlers never produce [failed],
    [refunded] or [cancelled]. *)
Theorem reachable_bookings_state_ok db0 db :
  booking db0 = ∅ →
  reachable key_id secret hmac db0 db →
  bookings_state_ok db.
Proof.
  intros Hempty Hw%reachable_writes.
  eapply writes_bookings_state_ok; [by apply no_booking_state_ok|done].
Qed.

(** X21.  Starting without payments, the payments have distinct ids
    and each is for a stored booking, with that booking's total as its
    amount. *)
Theorem reachable_payments_refer db0 db :
  payment db0 = [] →
  reachable key_id secret hmac db0 db →
  payments_refer db.
Proof.
  intros Hempty Hw%reachable_writes.
  assert (payments_refer db0) as Hok0.
  { unfold payments_refer. rewrite Hempty. split; [constructor|].
    intros id p Hp. by apply elem_of_nil in Hp. }
  clear Hempty. induction Hw as [|db1 db2 db3 Hw _ IH]; [done|].
  apply IH. by eapply write_payments_refer.
Qed.

End Sequences.

(** ** Reading handlers *)

Lemma String_leb_trans (s1 s2 s3 : string) :
  String.leb s1 s2 = true → String.leb s2 s3 = true → String.leb s1 s3 = true.
Proof.
  revert s2 s3. induction s1 as [|a s1 IH]; intros [|b s2] [|c s3]; try done.
  specialize (IH s2 s3). revert IH. unfold String.leb. cbn. unfold Ascii.compare.
  destruct (N.compare_spec (N_of_ascii a) (N_of_ascii b)) as [Hab|Hab|Hab];
    destruct (N.compare_spec (N_of_ascii b) (N_of_ascii c)) as [Hbc|Hbc|Hbc];
    try done; intros IH.
  - rewrite Hab, Hbc, N.compare_refl. exact IH.
  - rewrite Hab. by rewrite (proj2 (N.compare_lt_iff _ _) Hbc).
  - rewrite <- Hbc. by rewrite (proj2 (N.compare_lt_iff _ _) Hab).
  - by rewrite (proj2 (N.compare_lt_iff _ _) (N.lt_trans _ _ _ Hab Hbc)).
Qed.

#[local] Instance by_startTime_total : Total by_startTime.
Proof. intros a b. apply String.leb_total. Qed.

#[local] Instance by_startTime_trans : Transitive by_startTime.
Proof. intros a b c. apply String_leb_trans. Qed.

#[local] Instance newest_first_total : Total newest_first.
Proof. intros a b. unfold newest_first. lia. Qed.

#[local] Instance newest_first_trans : Transitive newest_first.
Proof. intros a b c. unfold newest_first. lia. Qed.

Lemma elem_of_listing {A} (R : relation (ObjectId * A)) `{∀ x y, Decision (R x y)}
    (P : ObjectId * A → Prop) `{∀ x, Decision (P x)} (m : gmap ObjectId A)
    (sid : string) (a : A) :
  (sid, a) ∈ with_id <$> merge_sort R (map_to_list (filter P m)) ↔
  ∃ i, sid = str_of_ObjectId i ∧ m !! i = Some a ∧ P (i, a).
Proof.
  rewrite list_elem_of_fmap. split.
  - intros ([i a'] & [= -> ->] & Hin). rewrite merge_sort_Permutation in Hin.
    apply elem_of_map_to_list, map_lookup_filter_Some in Hin as [Hi HP]. by exists i.
  - intros (i & -> & Hi & HP). exists (i, a). split; [done|].
    rewrite merge_sort_Permutation. apply elem_of_map_to_list, map_lookup_filter_Some. done.
Qed.

Lemma length_listing {A} (R : relation (ObjectId * A)) `{∀ x y, Decision (R x y)}
    (P : ObjectId * A → Prop) `{∀ x, Decision (P x)} (m : gmap ObjectId A) :
  length (with_id <$> merge_sort R (map_to_list (filter P m))) = size (filter P m).
Proof. by rewrite length_fmap, merge_sort_Permutation, length_map_to_list. Qed.

(** X22.  [get_slots] lists its items by ascending start time. *)
Theorem get_slots_sorted venue_id date db :
  StronglySorted (λ a b, String.leb (s_startTime a.2) (s_startTime b.2) = true)
    (get_slots venue_id date db).
Proof.
  unfold get_slots. eapply StronglySorted_fmap; [|apply (StronglySorted_merge_sort _)].
  intros a b Hab. exact Hab.
Qed.

(** X23.  [get_slots] lists exactly the stored slots of the venue and
    date asked for, each once, under the printed form of its [_id];
    the venue id is compared as a string. *)
Theorem get_slots_items venue_id date db :
  (∀ sid s, (sid, s) ∈ get_slots venue_id date db ↔
     ∃ i, sid = str_of_ObjectId i ∧ availabilityslot db !! i = Some s ∧
          s_venueId s = venue_id ∧ s_date s = date) ∧
  length (get_slots venue_id date db) =
    size (filter (λ kv : ObjectId * AvailabilitySlot,
                    s_venueId kv.2 = venue_id ∧ s_date kv.2 = date) (availabilityslot db)).
Proof.
  split; [|apply length_listing]. intros sid s. unfold get_slots.
  rewrite elem_of_listing. done.
Qed.

(** X24.  [list_bookings] lists its items newest first. *)
Theorem list_bookings_sorted userId ownerId role db :
  StronglySorted (λ a b, (b_created_at b.2 ≤ b_created_at a.2)%Z)
    (list_bookings userId ownerId role db).
Proof.
  unfold list_bookings. eapply StronglySorted_fmap; [|apply (StronglySorted_merge_sort _)].
  intros a b Hab. exact Hab.
Qed.

Lemma given_None o : given o = None ↔ o = None ∨ o = Some "".
Proof.
  destruct o as [s|]; cbn; [|split; [by left|done]]. case_decide as Hs.
  - subst. split; [by right|done].
  - split; [done|]. intros [?|[= ?]]; done.
Qed.

Lemma given_Some o s : given o = Some s ↔ o = Some s ∧ s ≠ "".
Proof.
  destruct o as [s'|]; cbn; [|split; [done|by intros [? _]]]. case_decide as Hs.
  - subst. split; [done|]. by intros [[= <-] ?].
  - split; [by intros [= <-]|]. by intros [[= <-] ?].
Qed.

Lemma elem_of_owner_venue_ids ownerId db vstr :
  vstr ∈ owner_venue_ids ownerId db ↔
  ∃ vid v, venue db !! vid = Some v ∧ v_ownerId v = ownerId ∧ vstr = str_of_ObjectId vid.
Proof.
  unfold owner_venue_ids. rewrite list_elem_of_fmap. split.
  - intros (vid & -> & Hin). apply list_elem_of_fmap in Hin as ([vid' v] & -> & Hin).
    apply elem_of_map_to_list, map_lookup_filter_Some in Hin as [Hv Ho]. by exists vid', v.
  - intros (vid & v & Hv & Ho & ->). exists vid. split; [done|].
    apply list_elem_of_fmap. exists (vid, v). split; [done|].
    apply elem_of_map_to_list, map_lookup_filter_Some. done.
Qed.

(** X25.  [list_bookings] lists exactly the stored bookings that pass
    the filters: a [userId] that is absent or empty does not filter, and
    neither does such an [ownerId]; otherwise the booking's user must
    equal [userId], and its venue id must be the printed [_id] of a venue
    of that owner.  [role] plays no part. *)
Theorem list_bookings_items userId ownerId role db sid b :
  (sid, b) ∈ list_bookings userId ownerId role db ↔
  ∃ i, sid = str_of_ObjectId i ∧ booking db !! i = Some b ∧
       (userId = None ∨ userId = Some "" ∨ userId = Some (b_userId b)) ∧
       (ownerId = None ∨ ownerId = Some "" ∨
        ∃ vid v, venue db !! vid = Some v ∧ ownerId = Some (v_ownerId v) ∧
                 b_venueId b = str_of_ObjectId vid).
Proof.
  unfold list_bookings. rewrite elem_of_listing. unfold booking_filter. cbn [snd].
  split.
  - intros (i & -> & Hb & Hu & Ho). exists i. repeat split; [done| |].
    + destruct (given userId) as [u|] eqn:Hg.
      * apply given_Some in Hg as [-> _]. right; right. by rewrite Hu.
      * apply given_None in Hg as [->| ->]; by eauto.
    + destruct (given ownerId) as [o|] eqn:Hg.
      * apply given_Some in Hg as [-> _]. right; right.
        apply elem_of_owner_venue_ids in Ho as (vid & v & ? & <- & ?). by exists vid, v.
      * apply given_None in Hg as [->| ->]; by eauto.
  - intros (i & -> & Hb & Hu & Ho). exists i. repeat split; [done| |].
    + destruct (given userId) as [u|] eqn:Hg; [|done].
      apply given_Some in Hg as [-> Hne]. by destruct Hu as [?|[[= ?]|[= ?]]].
    + destruct (given ownerId) as [o|] eqn:Hg; [|done].
      apply given_Some in Hg as [-> Hne].
      destruct Ho as [?|[[= ?]|(vid & v & Hv & [= ->] & Hb')]]; [done..|].
      apply elem_of_owner_venue_ids. by exists vid, v.
Qed.

(** ** Reviews *)

Lemma has_confirmed_booking userId venueId (m : gmap ObjectId Booking) :
  is_Some (head (map_to_list (filter (confirmed_booking_of userId venueId) m))) ↔
  ∃ i b, m !! i = Some b ∧ b_userId b = userId ∧ b_venueId b = venueId ∧
         b_status b = BookingStatus.confirmed.
Proof.
  split.
  - intros [[i b] Hh]. apply head_Some_elem_of in Hh.
    apply elem_of_map_to_list, map_lookup_filter_Some in Hh as [Hb HP]. by exists i, b.
  - intros (i & b & Hb & HP).
    assert ((i, b) ∈ map_to_list (filter (confirmed_booking_of userId venueId) m)) as Hin.
    { apply elem_of_map_to_list, map_lookup_filter_Some. done. }
    destruct (map_to_list _) as [|x l]; [by apply elem_of_nil in Hin|]. by eexists.
Qed.

Lemma add_review_has payload new_id now site x :
  head (map_to_list
          (filter (confirmed_booking_of (ar_userId payload) (ar_venueId payload))
             (booking (site_db site)))) = Some x →
  bson_int (ar_rating payload) →
  review site !! new_id = None →
  add_review payload new_id now site =
  (Ok (str_of_ObjectId new_id),
   {| site_db := site_db site;
      review := <[new_id := {| r_userId := ar_userId payload;
                               r_venueId := ar_venueId payload;
                               r_rating := ar_rating payload;
                               r_comment := ar_comment payload;
                               r_created_at := now |}]> (review site) |}).
Proof.
  intros Hh Hint Hfresh. unfold add_review. rewrite Hh, Hfresh.
  by rewrite decide_True.
Qed.

Lemma add_review_has_not payload new_id now site :
  (¬ ∃ i b, booking (site_db site) !! i = Some b ∧ b_userId b = ar_userId payload ∧
            b_venueId b = ar_venueId payload ∧ b_status b = BookingStatus.confirmed) →
  add_review payload new_id now site = (Raised review_forbidden, site).
Proof.
  intros Hno. unfold add_review.
  destruct (head _) as [x|] eqn:Hh; [|done].
  destruct Hno. apply has_confirmed_booking. by eexists.
Qed.

(** X26.  Without a confirmed booking of the user for the venue,
    [add_review] raises the 403 and stores nothing; with one it does not
    raise the 403. *)
Theorem add_review_forbidden payload new_id now site :
  add_review payload new_id now site = (Raised review_forbidden, site) ↔
  ¬ ∃ i b, booking (site_db site) !! i = Some b ∧ b_userId b = ar_userId payload ∧
           b_venueId b = ar_venueId payload ∧ b_status b = BookingStatus.confirmed.
Proof.
  split; [|apply add_review_has_not].
  intros Hrun [x Hh]%has_confirmed_booking. unfold add_review in Hrun.
  rewrite Hh in Hrun. case_decide; [|done]. by destruct (review site !! new_id).
Qed.

(** X27.  With a confirmed booking of the user for the venue and a
    rating that fits in 64 bits, the review is stored under the new id
    as it was sent and the id is returned; the bookings are not touched.
    No other bound is put on the rating. *)
Theorem add_review_accepted payload new_id now site i b :
  booking (site_db site) !! i = Some b →
  b_userId b = ar_userId payload →
  b_venueId b = ar_venueId payload →
  b_status b = BookingStatus.confirmed →
  (- 2 ^ 63 ≤ ar_rating payload < 2 ^ 63)%Z →
  review site !! new_id = None →
  ∃ site',
    add_review payload new_id now site = (Ok (str_of_ObjectId new_id), site') ∧
    site_db site' = site_db site ∧
    review site' =
      <[new_id := {| r_userId := ar_userId payload; r_venueId := ar_venueId payload;
                     r_rating := ar_rating payload; r_comment := ar_comment payload;
                     r_created_at := now |}]> (review site).
Proof.
  intros Hb Hu Hv Hs Hint Hfresh.
  assert (is_Some (head (map_to_list (filter
     (confirmed_booking_of (ar_userId payload) (ar_venueId payload))
     (booking (site_db site)))))) as [x Hh].
  { apply has_confirmed_booking. by exists i, b. }
  eexists. split; [by apply (add_review_has _ _ _ _ x)|]. done.
Qed.

Section ReviewsAfterPayment.

Variable key_id : string.
Variable secret : string.
Variable hmac : string → string → string.

(** X28.  After [confirm_payment] returned for a booking, a review by
    that booking's user for its venue is accepted, if its rating fits in
    64 bits. *)
Theorem confirm_then_review payload db r db' bid b reviews new_id now rating comment :
  confirm_payment secret hmac payload db = (Ok r, db') →
  ObjectId_of_str (cp_bookingId payload) = Some bid →
  booking db !! bid = Some b →
  (- 2 ^ 63 ≤ rating < 2 ^ 63)%Z →
  reviews !! new_id = None →
  (add_review {| ar_userId := b_userId b; ar_venueId := b_venueId b;
                 ar_rating := rating; ar_comment := comment |}
     new_id now {| site_db := db'; review := reviews |}).1 = Ok (str_of_ObjectId new_id).
Proof.
  intros Hrun Hbid Hb Hint Hfresh.
  assert (booking db' !! bid = Some (mark_paid (razorpay_payment_id payload) b)) as Hb'.
  { rewrite confirm_payment_run in Hrun.
    destruct (signature_rejected secret hmac payload); [done|].
    rewrite Hbid, Hb in Hrun. cbn zeta in Hrun.
    destruct (mapM ObjectId_of_str (b_slotIds b)); [|done].
    injection Hrun as _ <-. cbn. by rewrite lookup_alter_eq, Hb. }
  assert (is_Some (head (map_to_list (filter
     (confirmed_booking_of (b_userId b) (b_venueId b)) (booking db'))))) as [x Hh].
  { apply has_confirmed_booking. by eexists bid, _. }
  by rewrite (add_review_has _ _ _ _ x).
Qed.

(** X29.  Starting without bookings, a user who has no paid booking
    for a venue cannot review it: a booking that was only created does
    not count. *)
Theorem review_needs_payment db0 db payload new_id now reviews :
  booking db0 = ∅ →
  reachable key_id secret hmac db0 db →
  (∀ i b, booking db !! i = Some b →
          b_userId b = ar_userId payload → b_venueId b = ar_venueId payload →
          b_paymentStatus b ≠ PaymentStatus.paid) →
  add_review payload new_id now {| site_db := db; review := reviews |} =
    (Raised review_forbidden, {| site_db := db; review := reviews |}).
Proof.
  intros Hempty Hreach%reachable_writes Hunpaid. apply add_review_has_not.
  intros (i & b & Hb & Hu & Hv & Hs). cbn in Hb.
  destruct (writes_bookings_state_ok db0 db (no_booking_state_ok db0 Hempty) Hreach i b Hb)
    as [(_ & Hp & _)|(Hp & _)]; [congruence|].
  by apply (Hunpaid i b).
Qed.

End ReviewsAfterPayment.

(** ** The handlers at the sample data *)

(** Price 500 and two available slots: the booking is stored pending
    with total 1000.00 and commission 100.00, both slots are reserved,
    and the payment is created for the local order. *)
Example sample_booking :
  (create_booking "" "" sample_request sample_env sample_db).1
  = Ok {| q_bookingId := sample_booking_id; q_totalAmount := 1000;
          q_order := fallback_order sample_booking_id 100000; q_razorpayKeyId := "" |} ∧
  booking sample_booked_db !! 100%N
  = Some {| b_userId := "player"; b_venueId := sample_venue; b_slotIds := [slot1; slot3];
            b_totalAmount := 1000; b_commission := 100;
            b_paymentStatus := PaymentStatus.pending; b_status := BookingStatus.pending;
            b_bookingCode := None; b_created_at := 1735689600 |} ∧
  s_status <$> availabilityslot sample_booked_db !! 1%N = Some SlotStatus.reserved ∧
  s_status <$> availabilityslot sample_booked_db !! 3%N = Some SlotStatus.reserved ∧
  p_status <$> payment_for sample_booking_id sample_booked_db = Some PaymentState.created.
Proof. repeat split; vm_compute; reflexivity. Qed.

(** Its confirmation: booking paid and confirmed, both slots booked,
    payment paid. *)
Example sample_confirmation_run :
  (confirm_payment "" sample_digest (sample_confirmation None) sample_booked_db).1
  = Ok "confirmed" ∧
  b_paymentStatus <$> booking sample_confirmed_db !! 100%N = Some PaymentStatus.paid ∧
  b_status <$> booking sample_confirmed_db !! 100%N = Some BookingStatus.confirmed ∧
  s_status <$> availabilityslot sample_confirmed_db !! 1%N = Some SlotStatus.booked ∧
  s_status <$> availabilityslot sample_confirmed_db !! 3%N = Some SlotStatus.booked ∧
  p_status <$> payment_for sample_booking_id sample_confirmed_db = Some PaymentState.paid.
Proof. repeat split; vm_compute; reflexivity. Qed.

(** An id with white space between its digit pairs is accepted and
    names no stored document: [reserve_slots] holds the other slot and
    raises the 409, and [confirm_payment] answers 404, not 400. *)
Example white_space_ids :
  reserve_slots {| rp_userId := "player";
                   rp_slotIds := [slot1; "00 00 00 00 00 00 00 00 "] |} sample_db
  = (Raised slot_conflict, after_hold [1%N; (4 * 2 ^ 96)%N] sample_db) ∧
  (s_status <$> availabilityslot (after_hold [1%N; (4 * 2 ^ 96)%N] sample_db) !! 1%N)
  = Some SlotStatus.reserved ∧
  confirm_payment "" sample_digest
    {| cp_bookingId := "00 00 00 00 00 00 00 00 "; razorpay_payment_id := "pay_1";
       razorpay_order_id := "order_1"; razorpay_signature := None |} sample_booked_db
  = (Raised booking_not_found, sample_booked_db).
Proof. repeat split; vm_compute; reflexivity. Qed.

(** A rating outside 64 bits stops [add_review] at the insert, with
    nothing stored. *)
Example add_review_overflow :
  add_review {| ar_userId := "player"; ar_venueId := sample_venue;
                ar_rating := 2 ^ 63; ar_comment := None |}
    7%N 1735700000%Z (sample_site sample_confirmed_db)
  = (Raised (Unhandled "OverflowError"), sample_site sample_confirmed_db).
Proof. vm_compute. reflexivity. Qed.

(** C7.  [confirm_payment] finds the booking by the id that the request
    denotes and the payment by the id as the request spells it.  The
    sample booking is made under the id [0000000000000000000000ab] and
    is pending; it is confirmed under [0000000000000000000000AB], with no
    signature.  The call returns "confirmed", the booking is paid and
    confirmed with the payment id as its code and both slots are booked,
    but no payment has changed: the payment of the booking is still
    [created] and has no transaction id. *)
Theorem confirm_payment_other_spelling :
  let db := sample_booked_db_ab in
  let db' := (confirm_payment "" sample_digest sample_confirmation_upper_case db).2 in
  (b_paymentStatus <$> booking db !! 171%N) = Some PaymentStatus.pending ∧
  (b_status <$> booking db !! 171%N) = Some BookingStatus.pending ∧
  (confirm_payment "" sample_digest sample_confirmation_upper_case db).1 = Ok "confirmed" ∧
  (b_paymentStatus <$> booking db' !! 171%N) = Some PaymentStatus.paid ∧
  (b_status <$> booking db' !! 171%N) = Some BookingStatus.confirmed ∧
  (b_bookingCode <$> booking db' !! 171%N) = Some (Some "pay_1") ∧
  (s_status <$> availabilityslot db' !! 1%N) = Some SlotStatus.booked ∧
  (s_status <$> availabilityslot db' !! 3%N) = Some SlotStatus.booked ∧
  payment db' = payment db ∧
  (p_status <$> payment_for "0000000000000000000000ab" db') = Some PaymentState.created ∧
  (p_transactionId <$> payment_for "0000000000000000000000ab" db') = Some None ∧
  payment_for "0000000000000000000000AB" db' = None.
Proof. vm_compute. repeat split. Qed.

(** ** The theorems at the sample data *)

Lemma in_list_2_1 {A} (x y : A) : x ∈ [x; y].
Proof. apply elem_of_cons. by left. Qed.

Lemma in_list_2_2 {A} (x y : A) : y ∈ [x; y].
Proof. apply elem_of_cons. right. apply elem_of_cons. by left. Qed.

Lemma paid_bookings_confirmed_and_booked_witness :
  booking sample_db = ∅ ∧ paid_invariant sample_confirmed_db.
Proof.
  split; [reflexivity|].
  apply (paid_bookings_confirmed_and_booked "" "" sample_digest sample_db).
  - reflexivity.
  - apply (rtc_l _ _ sample_booked_db).
    + apply (step_create "" "" sample_digest sample_request sample_env sample_db).
    + apply (rtc_l _ _ sample_confirmed_db); [|apply rtc_refl].
      apply (step_confirm "" "" sample_digest (sample_confirmation None) sample_booked_db).
Defined.

Lemma confirm_payment_signature_mismatch_witness :
  confirm_payment "s3cr3t" sample_digest (sample_confirmation (Some "forged")) sample_booked_db
  = (Raised signature_mismatch, sample_booked_db).
Proof.
  apply (confirm_payment_signature_mismatch "s3cr3t" sample_digest
           (sample_confirmation (Some "forged")) sample_booked_db "forged").
  - reflexivity.
  - discriminate.
  - discriminate.
  - vm_compute. discriminate.
Defined.

Lemma create_booking_terminal_slot_witness :
  create_booking "" ""
    {| cb_userId := "player"; cb_venueId := sample_venue; cb_slotIds := [slot1; slot2] |}
    sample_env sample_db
  = (Raised slot_not_bookable, sample_db).
Proof.
  destruct (create_booking_terminal_slot "" ""
              {| cb_userId := "player"; cb_venueId := sample_venue;
                 cb_slotIds := [slot1; slot2] |}
              sample_env sample_db slot2 2%N (sample_slot SlotStatus.booked))
    as [_ Hbookable].
  - apply in_list_2_2.
  - reflexivity.
  - reflexivity.
  - left. reflexivity.
  - apply (Hbookable 160%N [1%N; 2%N]).
    + reflexivity.
    + vm_compute. eauto.
    + reflexivity.
    + apply NoDup_cons. split.
      * intros Hin. apply list_elem_of_singleton in Hin. discriminate.
      * apply NoDup_singleton.
    + intros j Hj. apply elem_of_cons in Hj as [->|Hj]; [vm_compute; eauto|].
      apply list_elem_of_singleton in Hj as ->. vm_compute. eauto.
Defined.

(** C5 fails as the spec words it: slot 2 is booked, and a request for
    it and for an id that names no slot is answered "Invalid slots"
    (400), not "Some slots are not bookable" (409).  The number of slots
    found is checked before their statuses. *)
Lemma create_booking_terminal_slot_invalid_slots :
  (s_status <$> availabilityslot sample_db !! 2%N) = Some SlotStatus.booked ∧
  ObjectId_of_str slot2 = Some 2%N ∧
  (create_booking "" ""
     {| cb_userId := "player"; cb_venueId := sample_venue;
        cb_slotIds := [slot2; "000000000000000000000009"] |}
     sample_env sample_db).1 = Raised invalid_slots ∧
  invalid_slots ≠ slot_not_bookable.
Proof. repeat split; try (vm_compute; reflexivity). discriminate. Qed.

Lemma create_booking_amounts_witness :
  ∃ q b,
    (create_booking "" "" sample_request sample_env sample_db).1 = Ok q ∧
    q_totalAmount q = 1000%float ∧
    booking sample_booked_db !! 100%N = Some b ∧
    b_totalAmount b = 1000%float ∧
    b_commission b = 100%float.
Proof.
  destruct (create_booking "" "" sample_request sample_env sample_db) as [r db'] eqn:Hrun.
  destruct r as [q|e]; [|vm_compute in Hrun; discriminate].
  destruct (create_booking_amounts "" "" sample_request sample_env sample_db 160%N
              {| v_ownerId := "owner"; v_name := "Emerald Arena";
                 v_pricePerHour := Some 500%float |} q db')
    as (Htotal & _ & b & Hb & Hbt & Hbc).
  - reflexivity.
  - reflexivity.
  - exact Hrun.
  - exists q, b. split; [reflexivity|]. split; [exact Htotal|].
    split; [|split; [exact Hbt|exact Hbc]].
    unfold sample_booked_db. rewrite Hrun. exact Hb.
Defined.


Lemma create_booking_fallback_order_witness :
  ∃ db',
    create_booking "" "" sample_request sample_env sample_db =
    (Ok {| q_bookingId := sample_booking_id;
           q_totalAmount := 1000%float;
           q_order := {| order_id := Some "order_000000000000000000000064";
                         order_amount := 100000;
                         order_currency := "INR" |};
           q_razorpayKeyId := "" |}, db').
Proof.
  apply (create_booking_fallback_order "" "" sample_request sample_env sample_db 160%N
           {| v_ownerId := "owner"; v_name := "Emerald Arena";
              v_pricePerHour := Some 500%float |} [1%N; 3%N] 100000%Z).
  - left. reflexivity.
  - reflexivity.
  - reflexivity.
  - reflexivity.
  - apply NoDup_cons. split.
    + intros Hin. apply list_elem_of_singleton in Hin. discriminate.
    + apply NoDup_singleton.
  - intros i Hi. apply elem_of_cons in Hi as [->|Hi].
    + exists (sample_slot SlotStatus.available). split; reflexivity.
    + apply list_elem_of_singleton in Hi as ->.
      exists (sample_slot SlotStatus.available). split; reflexivity.
  - reflexivity.
  - intros Hin. vm_compute in Hin. apply elem_of_nil in Hin. exact Hin.
  - reflexivity.
Defined.

Lemma confirm_payment_ignores_order_id_witness :
  confirm_payment "s3cr3t" sample_digest
    {| cp_bookingId := sample_booking_id; razorpay_payment_id := "pay_1";
       razorpay_order_id := "order_000000000000000000000064";
       razorpay_signature := None |} sample_booked_db
  = confirm_payment "s3cr3t" sample_digest
    {| cp_bookingId := sample_booking_id; razorpay_payment_id := "pay_1";
       razorpay_order_id := "order_of_someone_else";
       razorpay_signature := None |} sample_booked_db.
Proof.
  apply (confirm_payment_ignores_order_id "s3cr3t" sample_digest).
  left. reflexivity.
Defined.

(** ** The further properties at the sample data *)

Lemma sample_booked_reachable : reachable "" "" sample_digest sample_db sample_booked_db.
Proof.
  apply rtc_once.
  apply (step_create "" "" sample_digest sample_request sample_env sample_db).
Qed.

Lemma sample_confirmed_reachable :
  reachable "" "" sample_digest sample_db sample_confirmed_db.
Proof.
  eapply rtc_r; [apply sample_booked_reachable|].
  apply (step_confirm "" "" sample_digest (sample_confirmation None) sample_booked_db).
Qed.

Lemma sample_booked_bookings :
  booking sample_booked_db
  = {[ 100%N := booking_doc sample_request 1000%float 1735689600%Z ]}.
Proof. vm_compute. reflexivity. Qed.

Lemma reserve_slots_malformed_id_witness :
  reserve_slots {| rp_userId := "player"; rp_slotIds := [slot1; "7" ] |} sample_db
  = (Raised invalid_id, sample_db).
Proof.
  apply (reserve_slots_malformed_id
           {| rp_userId := "player"; rp_slotIds := [slot1; "7"] |} sample_db "7").
  - apply in_list_2_2.
  - reflexivity.
Defined.

Lemma reserve_slots_again_witness :
  (reserve_slots {| rp_userId := "player"; rp_slotIds := [slot1; slot3] |} sample_db).1
  = Ok [slot1; slot3] ∧
  reserve_slots {| rp_userId := "other"; rp_slotIds := [slot1; slot3] |}
    (reserve_slots {| rp_userId := "player"; rp_slotIds := [slot1; slot3] |} sample_db).2
  = (Raised slot_conflict,
     (reserve_slots {| rp_userId := "player"; rp_slotIds := [slot1; slot3] |} sample_db).2).
Proof.
  split; [vm_compute; reflexivity|].
  apply (reserve_slots_again {| rp_userId := "other"; rp_slotIds := [slot1; slot3] |}
           sample_db [slot1; slot3]).
  - discriminate.
  - vm_compute. reflexivity.
Defined.

Lemma create_booking_http_error_no_write_witness :
  (create_booking "" ""
     {| cb_userId := "player"; cb_venueId := sample_venue; cb_slotIds := [slot1; slot2] |}
     sample_env sample_db).2 = sample_db.
Proof.
  apply (create_booking_http_error_no_write "" ""
           {| cb_userId := "player"; cb_venueId := sample_venue;
              cb_slotIds := [slot1; slot2] |}
           sample_env sample_db 409%Z "Some slots are not bookable").
  vm_compute. reflexivity.
Defined.

Lemma create_booking_invalid_slots_witness :
  create_booking "" ""
    {| cb_userId := "player"; cb_venueId := sample_venue;
       cb_slotIds := [slot1; "000000000000000000000009"] |}
    sample_env sample_db
  = (Raised invalid_slots, sample_db).
Proof.
  apply (create_booking_invalid_slots "" ""
           {| cb_userId := "player"; cb_venueId := sample_venue;
              cb_slotIds := [slot1; "000000000000000000000009"] |}
           sample_env sample_db 160%N [1%N; 9%N]).
  - reflexivity.
  - vm_compute. eauto.
  - reflexivity.
  - right. exists 9%N. split; [apply in_list_2_2|reflexivity].
Defined.

Lemma create_booking_ok_state_witness :
  payment sample_booked_db
  = [(200%N, pay_doc sample_booking_id 1000%float "order_000000000000000000000064"
               1735689601%Z)] ∧
  slot_in sample_booked_db SlotStatus.reserved slot1 ∧
  slot_in sample_booked_db SlotStatus.reserved slot3.
Proof.
  destruct (create_booking_ok_state "" "" sample_request sample_env sample_db
              {| q_bookingId := sample_booking_id; q_totalAmount := 1000%float;
                 q_order := fallback_order sample_booking_id 100000;
                 q_razorpayKeyId := "" |} sample_booked_db)
    as (_ & _ & _ & (order_ref & Href & Hpay) & Hslots & _).
  - vm_compute. reflexivity.
  - injection Href as <-. split; [exact Hpay|].
    split; [apply Hslots, in_list_2_1|apply Hslots, in_list_2_2].
Defined.

Lemma create_booking_no_slots_witness :
  ∃ q db',
    create_booking "" ""
      {| cb_userId := "player"; cb_venueId := sample_venue; cb_slotIds := [] |}
      sample_env sample_db = (Ok q, db') ∧
    q_totalAmount q = 500%float ∧
    availabilityslot db' = availabilityslot sample_db.
Proof.
  destruct (create_booking_no_slots "" ""
              {| cb_userId := "player"; cb_venueId := sample_venue; cb_slotIds := [] |}
              sample_env sample_db 160%N
              {| v_ownerId := "owner"; v_name := "Emerald Arena";
                 v_pricePerHour := Some 500%float |} 50000%Z)
    as (q & db' & Hrun & Htotal & Hslots & _).
  - reflexivity.
  - reflexivity.
  - reflexivity.
  - reflexivity.
  - intros Hin. vm_compute in Hin. apply elem_of_nil in Hin. exact Hin.
  - vm_compute. reflexivity.
  - intros o Ho. discriminate Ho.
  - exists q, db'. split; [exact Hrun|]. split; [|exact Hslots].
    rewrite Htotal. vm_compute. reflexivity.
Defined.

Lemma create_booking_same_slots_again_witness :
  ∃ q2 db2,
    create_booking "" "" sample_request sample_env2 sample_booked_db = (Ok q2, db2) ∧
    q_totalAmount q2 = 1000%float ∧
    (b_slotIds <$> booking db2 !! 100%N) = Some [slot1; slot3] ∧
    (b_slotIds <$> booking db2 !! 101%N) = Some [slot1; slot3].
Proof.
  destruct (create_booking_same_slots_again "" "" sample_request sample_env sample_env2
              sample_db
              {| q_bookingId := sample_booking_id; q_totalAmount := 1000%float;
                 q_order := fallback_order sample_booking_id 100000;
                 q_razorpayKeyId := "" |} sample_booked_db)
    as (q2 & db2 & Hrun & Htotal & b1 & b2 & Hb1 & Hb2 & _ & Hs1 & Hs2).
  - vm_compute. reflexivity.
  - reflexivity.
  - intros Hin. vm_compute in Hin. apply list_elem_of_singleton in Hin. discriminate Hin.
  - intros o Ho. discriminate Ho.
  - exists q2, db2. split; [exact Hrun|]. split; [exact Htotal|].
    cbn in Hb1, Hb2. rewrite Hb1, Hb2. cbn. rewrite Hs1, Hs2. split; reflexivity.
Defined.

Lemma create_booking_crash_keeps_hold_witness :
  (create_booking "rzp_test_key" "s3cr3t" sample_request sample_env_no_order_id sample_db).1
  = Raised (Unhandled "KeyError") ∧
  slot_in
    (create_booking "rzp_test_key" "s3cr3t" sample_request sample_env_no_order_id sample_db).2
    SlotStatus.reserved slot1.
Proof.
  split; [vm_compute; reflexivity|].
  destruct (create_booking_crash_keeps_hold "rzp_test_key" "s3cr3t" sample_request
              sample_env_no_order_id sample_db "KeyError"
              (create_booking "rzp_test_key" "s3cr3t" sample_request
                 sample_env_no_order_id sample_db).2)
    as (_ & _ & ids & _ & _ & Hheld).
  - vm_compute. reflexivity.
  - apply Hheld, in_list_2_1.
Defined.

Lemma create_booking_remote_order_witness :
  ∃ p,
    last (payment (create_booking "rzp_test_key" "s3cr3t" sample_request sample_env_remote
                     sample_db).2) = Some (200%N, p) ∧
    p_orderId p = "order_Nq2".
Proof.
  destruct (create_booking_remote_order "rzp_test_key" "s3cr3t" sample_request
              sample_env_remote sample_db
              {| q_bookingId := sample_booking_id; q_totalAmount := 1000%float;
                 q_order := sample_remote_order; q_razorpayKeyId := "rzp_test_key" |}
              (create_booking "rzp_test_key" "s3cr3t" sample_request sample_env_remote
                 sample_db).2 sample_remote_order)
    as (_ & p & Hlast & Hid & _).
  - discriminate.
  - discriminate.
  - reflexivity.
  - vm_compute. reflexivity.
  - exists p. split; [exact Hlast|]. injection Hid as <-. reflexivity.
Defined.

Lemma confirm_payment_unknown_booking_witness :
  confirm_payment "" sample_digest (sample_confirmation None) sample_db
  = (Raised booking_not_found, sample_db).
Proof.
  apply (confirm_payment_unknown_booking "" sample_digest (sample_confirmation None)
           sample_db).
  - reflexivity.
  - intros bid _. apply lookup_empty.
Defined.

Lemma create_then_confirm_witness :
  ∃ db2,
    confirm_payment "" sample_digest
      {| cp_bookingId := sample_booking_id; razorpay_payment_id := "pay_1";
         razorpay_order_id := "any"; razorpay_signature := None |} sample_booked_db
    = (Ok "confirmed", db2) ∧
    slot_in db2 SlotStatus.booked slot1 ∧ slot_in db2 SlotStatus.booked slot3.
Proof.
  destruct (create_then_confirm "" "" sample_digest sample_request sample_env sample_db
              {| q_bookingId := sample_booking_id; q_totalAmount := 1000%float;
                 q_order := fallback_order sample_booking_id 100000;
                 q_razorpayKeyId := "" |} sample_booked_db "pay_1" "any")
    as (db2 & Hrun & _ & Hslots & _).
  - reflexivity.
  - vm_compute. reflexivity.
  - exists db2. split; [exact Hrun|].
    split; [apply Hslots, in_list_2_1|apply Hslots, in_list_2_2].
Defined.

Lemma reachable_slots_forward_witness : slots_forward sample_db sample_confirmed_db.
Proof.
  apply (reachable_slots_forward "" "" sample_digest sample_db sample_confirmed_db).
  apply sample_confirmed_reachable.
Defined.

Lemma reachable_bookings_kept_witness : bookings_kept sample_booked_db sample_confirmed_db.
Proof.
  apply (reachable_bookings_kept "" "" sample_digest sample_booked_db sample_confirmed_db).
  apply rtc_once.
  apply (step_confirm "" "" sample_digest (sample_confirmation None) sample_booked_db).
Defined.

Lemma reachable_payments_kept_witness : payments_kept sample_booked_db sample_confirmed_db.
Proof.
  apply (reachable_payments_kept "" "" sample_digest sample_booked_db sample_confirmed_db).
  apply rtc_once.
  apply (step_confirm "" "" sample_digest (sample_confirmation None) sample_booked_db).
Defined.

Lemma reachable_bookings_state_ok_witness :
  booking sample_db = ∅ ∧ bookings_state_ok sample_confirmed_db.
Proof.
  split; [reflexivity|].
  apply (reachable_bookings_state_ok "" "" sample_digest sample_db sample_confirmed_db).
  - reflexivity.
  - apply sample_confirmed_reachable.
Defined.

Lemma reachable_payments_refer_witness :
  payment sample_db = [] ∧ payments_refer sample_confirmed_db.
Proof.
  split; [reflexivity|].
  apply (reachable_payments_refer "" "" sample_digest sample_db sample_confirmed_db).
  - reflexivity.
  - apply sample_confirmed_reachable.
Defined.

Lemma add_review_accepted_witness :
  ∃ site',
    add_review sample_review 7%N 1735700000%Z (sample_site sample_confirmed_db)
    = (Ok "000000000000000000000007", site') ∧
    site_db site' = sample_confirmed_db ∧
    (r_rating <$> review site' !! 7%N) = Some 9%Z.
Proof.
  destruct (add_review_accepted sample_review 7%N 1735700000%Z
              (sample_site sample_confirmed_db) 100%N
              (mark_paid "pay_1" (booking_doc sample_request 1000%float 1735689600%Z)))
    as (site' & Hrun & Hdb & Hreview); try reflexivity.
  { unfold sample_review. cbn. lia. }
  exists site'. split; [exact Hrun|]. split; [exact Hdb|].
  rewrite Hreview. reflexivity.
Defined.

Lemma confirm_then_review_witness :
  (add_review sample_review 7%N 1735700000%Z (sample_site sample_confirmed_db)).1
  = Ok "000000000000000000000007".
Proof.
  apply (confirm_then_review "" sample_digest (sample_confirmation None) sample_booked_db
           "confirmed" sample_confirmed_db 100%N
           (booking_doc sample_request 1000%float 1735689600%Z) ∅ 7%N 1735700000%Z
           9%Z None).
  - vm_compute. reflexivity.
  - reflexivity.
  - reflexivity.
  - lia.
  - reflexivity.
Defined.

Lemma review_needs_payment_witness :
  add_review sample_review 7%N 1735700000%Z (sample_site sample_booked_db)
  = (Raised review_forbidden, sample_site sample_booked_db).
Proof.
  apply (review_needs_payment "" "" sample_digest sample_db sample_booked_db sample_review
           7%N 1735700000%Z ∅).
  - reflexivity.
  - apply sample_booked_reachable.
  - intros i b Hb _ _. rewrite sample_booked_bookings in Hb.
    apply lookup_singleton_Some in Hb as [_ <-]. discriminate.
Defined.
